(** * react-batch-loader: the batching engine of [createBatchLoader.ts]

    A shallow embedding of the closure built by [createBatchLoader] and of the
    environment it talks to (timers, the awaited loader promise, observers).

    Conventions of the embedding.
    - The two plain objects [subscriptions] and [itemStates] are finite maps
      of their own string keys. Both are created by [{}], so a read
      [obj[name]] that finds no own key finds the member of that name of
      [Object.prototype] when there is one: [readProperty]. Such a member is
      truthy and has no [forEach], [filter] or [push], and spreading it gives
      the empty object, as spreading [undefined] does. [getItem] and
      [subscribe], which test what they read, go through [readProperty];
      [reportQueuing] and the disposer call a method on what they read at
      once and throw for an inherited member as they do for [undefined].
      The guarded reporting steps look among the own keys: an inherited name
      that has no own entry can be in a queue only after a [refresh] of that
      name has thrown, and what a flush does with such a queue is outside
      the model. So is the assignment to the key [__proto__], which replaces
      the prototype of the object; reading that key back gives the object
      assigned, as the map does.
    - A JavaScript object that is the spread of another one may miss fields:
      an [ItemState] therefore carries optional fields, [None] standing for a
      property that is not there.
    - Observers are recorders, as the [jest.fn()] of the test-suite: a call
      [callback(itemStates[id])] appends to a log and does not re-enter the
      engine nor throw.  A callback is known by its identity, a number.
    - Items are any values of [T]; which of them are truthy is given with
      [T], as [truthyItem]. Objects, the items of the test-suite, all are.
      The functions handed to the engine, [getId] and the loader, are total:
      [getId] does not throw, and a loader resolves with a list of items,
      rejects, or throws.
    - [setTimeout] arms a timer handle; the firing of an armed timer and the
      settling of an awaited loader promise are events of the environment.
      The real delay is kept in the timer but no clock is modelled.
    - A [TypeError] raised by [forEach], [filter] or [push] on a value
      without that method is the only exception of the engine; the state
      reached when it is raised is kept.
    - [Object.keys(subscriptions)] lists the own keys once each, in an order
      the maps do not record: [refreshAll] takes the enumeration. *)

From stdpp Require Import base option list strings gmap.

Set Warnings "-clear-no-such-hyp".

(** Which values of an item type are truthy: what [!item] tests. *)
Class Truthiness (T : Type) := truthyItem : T → bool.

Section BatchLoader.

Context {T : Type} `{!Truthiness T}.

(** ** Data model *)

(** [interface ItemState<T>], with fields possibly missing. [data] is
    [None] when missing, [Some None] for [null], [Some (Some x)] for an item. *)
Record ItemState := mkItemState {
  isLoading : option bool;
  isQueued : option bool;
  hasErrors : option bool;
  data : option (option T)
}.

Definition ItemCallback := nat.

Definition NEW_ITEM_STATE : ItemState :=
  {| isLoading := Some false; isQueued := Some true;
     hasErrors := Some false; data := Some None |}.

(** What a bulk load does: [Promise<T[]> | T[]] that resolves, a promise that
    rejects, or a synchronous throw. *)
Inductive LoadResult :=
  | Resolves (items : list T)
  | Rejects
  | Throws.

Definition Loader := list string → LoadResult.
Definition IdGetter := T → string.

Record Options := mkOptions {
  debounce : Z;
  loadWithoutItems : bool;
  keepCache : bool
}.

Record PartialOptions := mkPartialOptions {
  p_debounce : option Z;
  p_loadWithoutItems : option bool;
  p_keepCache : option bool
}.

Definition DEFAULT_OPTIONS : Options :=
  {| debounce := 0; loadWithoutItems := false; keepCache := false |}.

(** [{...DEFAULT_OPTIONS, ...options}] *)
Definition withDefaultValues (o : PartialOptions) : Options :=
  {| debounce := default (debounce DEFAULT_OPTIONS) (p_debounce o);
     loadWithoutItems := default (loadWithoutItems DEFAULT_OPTIONS) (p_loadWithoutItems o);
     keepCache := default (keepCache DEFAULT_OPTIONS) (p_keepCache o) |}.

(** [type Queue = Array<string | null>] *)
Definition Queue := list (option string).

(** One observer call [callback(itemStates[id])]: whose observers, which
    callback, with which state. *)
Record Call := mkCall {
  call_id : string;
  call_callback : ItemCallback;
  call_state : ItemState
}.

(** An awaited loader call: the snapshot [itemsToFetch] and how the promise
    will settle ([Some items] resolves, [None] rejects). *)
Definition Pending : Type := Queue * option (list T).

(** The closure variables of [createBatchLoader] followed by the environment:
    armed timers (handle, delay), the next fresh handle, the awaited loads,
    the arguments of the loader calls made so far, and the observer calls. *)
Record Engine := mkEngine {
  optionsWithDefaultValues : Options;
  currentLoader : Loader;
  currentQueue : Queue;
  subscriptions : gmap string (list ItemCallback);
  itemStates : gmap string ItemState;
  currentTimeout : option nat;
  timers : list (nat * Z);
  nextTimer : nat;
  pending : list Pending;
  loaderCalls : list (list string);
  calls : list Call
}.

Definition set_options (o : Options) (e : Engine) : Engine :=
  mkEngine o (currentLoader e) (currentQueue e) (subscriptions e) (itemStates e)
    (currentTimeout e) (timers e) (nextTimer e) (pending e) (loaderCalls e) (calls e).

Definition set_currentLoader (l : Loader) (e : Engine) : Engine :=
  mkEngine (optionsWithDefaultValues e) l (currentQueue e) (subscriptions e) (itemStates e)
    (currentTimeout e) (timers e) (nextTimer e) (pending e) (loaderCalls e) (calls e).

Definition set_currentQueue (q : Queue) (e : Engine) : Engine :=
  mkEngine (optionsWithDefaultValues e) (currentLoader e) q (subscriptions e) (itemStates e)
    (currentTimeout e) (timers e) (nextTimer e) (pending e) (loaderCalls e) (calls e).

Definition set_subscriptions (s : gmap string (list ItemCallback)) (e : Engine) : Engine :=
  mkEngine (optionsWithDefaultValues e) (currentLoader e) (currentQueue e) s (itemStates e)
    (currentTimeout e) (timers e) (nextTimer e) (pending e) (loaderCalls e) (calls e).

Definition set_itemStates (s : gmap string ItemState) (e : Engine) : Engine :=
  mkEngine (optionsWithDefaultValues e) (currentLoader e) (currentQueue e) (subscriptions e) s
    (currentTimeout e) (timers e) (nextTimer e) (pending e) (loaderCalls e) (calls e).

Definition set_currentTimeout (t : option nat) (e : Engine) : Engine :=
  mkEngine (optionsWithDefaultValues e) (currentLoader e) (currentQueue e) (subscriptions e)
    (itemStates e) t (timers e) (nextTimer e) (pending e) (loaderCalls e) (calls e).

Definition set_timers (ts : list (nat * Z)) (n : nat) (e : Engine) : Engine :=
  mkEngine (optionsWithDefaultValues e) (currentLoader e) (currentQueue e) (subscriptions e)
    (itemStates e) (currentTimeout e) ts n (pending e) (loaderCalls e) (calls e).

Definition set_pending (p : list Pending) (e : Engine) : Engine :=
  mkEngine (optionsWithDefaultValues e) (currentLoader e) (currentQueue e) (subscriptions e)
    (itemStates e) (currentTimeout e) (timers e) (nextTimer e) p (loaderCalls e) (calls e).

Definition set_loaderCalls (l : list (list string)) (e : Engine) : Engine :=
  mkEngine (optionsWithDefaultValues e) (currentLoader e) (currentQueue e) (subscriptions e)
    (itemStates e) (currentTimeout e) (timers e) (nextTimer e) (pending e) l (calls e).

Definition set_calls (c : list Call) (e : Engine) : Engine :=
  mkEngine (optionsWithDefaultValues e) (currentLoader e) (currentQueue e) (subscriptions e)
    (itemStates e) (currentTimeout e) (timers e) (nextTimer e) (pending e) (loaderCalls e) c.

(** A call either returns a value or throws; both leave an engine behind. *)
Inductive Outcome (A : Type) :=
  | Returned (a : A) (e : Engine)
  | Threw (e : Engine).
Global Arguments Returned {A} a e.
Global Arguments Threw {A} e.

Definition engineOf {A} (o : Outcome A) : Engine :=
  match o with Returned _ e => e | Threw e => e end.

Definition andThen {A B} (o : Outcome A) (k : A → Engine → Outcome B) : Outcome B :=
  match o with Returned a e => k a e | Threw e => Threw e end.

(** ** JavaScript primitives used by the engine *)

(** Truthiness of a string: every string but the empty one. *)
Definition truthy (s : string) : bool :=
  match s with EmptyString => false | String _ _ => true end.

(** [utils/isDefined] on a queue entry. *)
Definition isDefined {A} (item : option A) : bool :=
  match item with Some _ => true | None => false end.

(** [itemsToFetch.filter(isDefined)] *)
Fixpoint filterDefined (q : Queue) : list string :=
  match q with
  | [] => []
  | item :: q' =>
      if isDefined item
      then match item with Some s => s :: filterDefined q' | None => filterDefined q' end
      else filterDefined q'
  end.

(** The names a plain object inherits from [Object.prototype]. *)
Definition inheritedNames : list string :=
  ["constructor"; "hasOwnProperty"; "isPrototypeOf"; "propertyIsEnumerable";
   "toLocaleString"; "toString"; "valueOf"; "__proto__";
   "__defineGetter__"; "__defineSetter__"; "__lookupGetter__"; "__lookupSetter__"].

Definition inherited (name : string) : bool := bool_decide (name ∈ inheritedNames).

(** [obj[name]] on an object created by [{}]: the own property, else the
    member of [Object.prototype] of that name, else [undefined]. *)
Inductive Property (A : Type) :=
  | Own (a : A)
  | Inherited (name : string)
  | Undefined.
Global Arguments Own {A} a.
Global Arguments Inherited {A} name.
Global Arguments Undefined {A}.

Definition readProperty {A} (obj : gmap string A) (name : string) : Property A :=
  match obj !! name with
  | Some a => Own a
  | None => if inherited name then Inherited name else Undefined
  end.

(** [{...itemStates[id]}]: spreading [undefined] gives the empty object. *)
Definition emptyObject : ItemState :=
  {| isLoading := None; isQueued := None; hasErrors := None; data := None |}.

Definition spread (o : option ItemState) : ItemState := default emptyObject o.

(** The four object literals written by the reporting steps. *)
Definition markQueued (s : ItemState) : ItemState :=
  {| isLoading := isLoading s; isQueued := Some true;
     hasErrors := hasErrors s; data := data s |}.

Definition markLoading (s : ItemState) : ItemState :=
  {| isLoading := Some true; isQueued := Some false;
     hasErrors := Some false; data := data s |}.

Definition markSucceeded (item : T) (s : ItemState) : ItemState :=
  {| isLoading := Some false; isQueued := isQueued s;
     hasErrors := Some false; data := Some (Some item) |}.

Definition markFailed (s : ItemState) : ItemState :=
  {| isLoading := Some false; isQueued := isQueued s;
     hasErrors := Some true; data := data s |}.

(** [itemStates[id] = st; callbacks.forEach((callback) => callback(itemStates[id]))] *)
Definition store (id : string) (st : ItemState) (e : Engine) : Engine :=
  set_itemStates (<[id := st]> (itemStates e)) e.

Definition notify (id : string) (st : ItemState) (callbacks : list ItemCallback)
    (e : Engine) : Engine :=
  set_calls (calls e ++ map (λ callback, mkCall id callback st) callbacks) e.

(** ** The engine *)

Variable getId : IdGetter.

Definition reportQueuing (id : option string) (e : Engine) : Outcome unit :=
  match id with
  | Some id =>
      if truthy id then
        let callbacks := subscriptions e !! id in
        let st := markQueued (spread (itemStates e !! id)) in
        let e := store id st e in
        match callbacks with
        | Some callbacks => Returned () (notify id st callbacks e)
        | None => Threw e
        end
      else Returned () e
  | None => Returned () e
  end.

(** The body shared by [reportLoading], [reportFinished] and [reportFailed]:
    [const callbacks = subscriptions[id]; if (callbacks) { ... }]. *)
Definition report (mark : ItemState → ItemState) (id : string) (e : Engine) : Engine :=
  match subscriptions e !! id with
  | Some callbacks =>
      let st := mark (spread (itemStates e !! id)) in
      notify id st callbacks (store id st e)
  | None => e
  end.

Definition reportLoading (ids : Queue) (e : Engine) : Engine :=
  foldl (λ e id,
    match id with
    | Some id => if truthy id then report markLoading id e else e
    | None => e
    end) e ids.

Definition reportFailed (ids : Queue) (e : Engine) : Engine :=
  foldl (λ e id,
    match id with
    | Some id => if truthy id then report markFailed id e else e
    | None => e
    end) e ids.

(** [items.find((item) => getId(item) === id)] *)
Definition findItem (items : list T) (id : string) : option T :=
  List.find (λ item, bool_decide (getId item = id)) items.

(** One turn of the [forEach] of [reportFinished], threading [missingIds].
    [if (!item)] holds when nothing was found and when what was found is
    falsy. *)
Definition reportFinishedStep (items : list T) (acc : Engine * list string)
    (id : option string) : Engine * list string :=
  match id with
  | Some id =>
      if truthy id then
        match findItem items id with
        | None => (acc.1, acc.2 ++ [id])
        | Some item =>
            if truthyItem item
            then (report (markSucceeded item) id acc.1, acc.2)
            else (acc.1, acc.2 ++ [id])
        end
      else acc
  | None => acc
  end.

Definition reportFinished (ids : Queue) (items : list T) (e : Engine) : Engine :=
  let acc := foldl (reportFinishedStep items) (e, []) ids in
  reportFailed (map Some acc.2) acc.1.

Definition clearTimeout (h : nat) (e : Engine) : Engine :=
  set_timers (filter (λ t, t.1 ≠ h) (timers e)) (nextTimer e) e.

(** [scheduleLoad]: cancel the tracked timer, arm a new one and track it. *)
Definition scheduleLoad (e : Engine) : Engine :=
  let e := match currentTimeout e with
           | Some h => clearTimeout h e
           | None => e
           end in
  let h := nextTimer e in
  set_currentTimeout (Some h)
    (set_timers (timers e ++ [(h, debounce (optionsWithDefaultValues e))]) (S h) e).

(** The [async] function given to [setTimeout], up to its [await]. A loader
    that throws is caught at once; otherwise the load is awaited. *)
Definition timerCallback (e : Engine) : Engine :=
  let itemsToFetch := currentQueue e in
  let e := set_currentQueue [] e in
  let e := reportLoading itemsToFetch e in
  let ids := filterDefined itemsToFetch in
  let e := set_loaderCalls (loaderCalls e ++ [ids]) e in
  match currentLoader e ids with
  | Resolves items => set_pending (pending e ++ [(itemsToFetch, Some items)]) e
  | Rejects => set_pending (pending e ++ [(itemsToFetch, None)]) e
  | Throws => set_currentTimeout None (reportFailed itemsToFetch e)
  end.

(** The rest of that function, once the awaited promise has settled. *)
Definition afterAwait (p : Pending) (e : Engine) : Engine :=
  set_currentTimeout None
    match p.2 with
    | Some result => reportFinished p.1 result e
    | None => reportFailed p.1 e
    end.

Definition addToQueue (id : option string) (e : Engine) : Outcome unit :=
  let e := set_currentQueue (currentQueue e ++ [id]) e in
  andThen (reportQueuing id e) (λ _ e, Returned () (scheduleLoad e)).

(** The closure as [createBatchLoader] leaves it. Timer handles start at 1. *)
Definition createBatchLoader (loader : Loader) (options : PartialOptions) : Engine :=
  let e := mkEngine (withDefaultValues options) loader [] ∅ ∅ None [] 1 [] [] [] in
  if loadWithoutItems (optionsWithDefaultValues e)
  then engineOf (addToQueue None e)
  else e.

(** *** The returned object *)

Definition setLoader (newLoader : Loader) (e : Engine) : Outcome unit :=
  Returned () (set_currentLoader newLoader e).

Definition setDebounce (newDebounce : Z) (e : Engine) : Outcome unit :=
  let o := optionsWithDefaultValues e in
  Returned () (set_options (mkOptions newDebounce (loadWithoutItems o) (keepCache o)) e).

(** What [getItem] hands out: an item state, or the member of
    [Object.prototype] of the given name. *)
Inductive Item :=
  | State (st : ItemState)
  | Member (name : string).

(** [itemStates[id] || NEW_ITEM_STATE]: a stored object is truthy, and so is
    an inherited member. *)
Definition getItem (id : string) (e : Engine) : Outcome Item :=
  Returned
    match readProperty (itemStates e) id with
    | Own st => State st
    | Inherited name => Member name
    | Undefined => State NEW_ITEM_STATE
    end
    e.

(** [refreshAll]. [Object.keys(subscriptions)] lists the registered
    identifiers once each (integer-like keys first, then the others in
    insertion order); the maps do not record that order, so the enumeration
    [keys] is given. A throwing [addToQueue] ends the loop. *)
Definition refreshAll (keys : list string) (e : Engine) : Outcome unit :=
  andThen
    (foldl (λ o id, andThen o (λ _ e, addToQueue (Some id) e)) (Returned () e) keys)
    (λ _ e,
       if loadWithoutItems (optionsWithDefaultValues e)
       then addToQueue None e
       else Returned () e).

Definition refresh (id : string) (e : Engine) : Outcome unit :=
  addToQueue (Some id) e.

(** [subscribe]; the disposer it returns is [unsubscribe id callback].
    [!subscriptions[id]] holds for [undefined] only: an observer list, even
    an empty one, and an inherited member are truthy. [push] is a method of
    an observer list only. *)
Definition subscribe (id : string) (callback : ItemCallback) (e : Engine) : Outcome unit :=
  andThen
    (match readProperty (subscriptions e) id with
     | Undefined =>
         let e := set_subscriptions (<[id := []]> (subscriptions e)) e in
         let e := set_itemStates (<[id := NEW_ITEM_STATE]> (itemStates e)) e in
         addToQueue (Some id) e
     | Own _ | Inherited _ => Returned () e
     end)
    (λ _ e,
       match readProperty (subscriptions e) id with
       | Own callbacks =>
           Returned () (set_subscriptions (<[id := callbacks ++ [callback]]> (subscriptions e)) e)
       | Inherited _ | Undefined => Threw e
       end).

Definition unsubscribe (id : string) (callback : ItemCallback) (e : Engine) : Outcome unit :=
  match subscriptions e !! id with
  | None => Threw e
  | Some callbacks =>
      let remaining := filter (λ c, c ≠ callback) callbacks in
      let e := set_subscriptions (<[id := remaining]> (subscriptions e)) e in
      if bool_decide (length remaining = 0) && negb (keepCache (optionsWithDefaultValues e))
      then Returned ()
             (set_itemStates (delete id (itemStates e))
                (set_subscriptions (delete id (subscriptions e)) e))
      else Returned () e
  end.

(** ** The environment *)

(** An armed timer fires: it leaves the armed set and its callback runs. *)
Definition timerFires (h : nat) (e : Engine) : option Engine :=
  if bool_decide (h ∈ (timers e).*1)
  then Some (timerCallback (clearTimeout h e))
  else None.

(** The [k]-th awaited load settles. *)
Definition loadSettles (k : nat) (e : Engine) : option Engine :=
  match pending e !! k with
  | Some p => Some (afterAwait p (set_pending (delete k (pending e)) e))
  | None => None
  end.

(** [keys] is an enumeration of the registry of [e]: what [Object.keys]
    may return. *)
Definition enumerates (keys : list string) (e : Engine) : Prop :=
  NoDup keys ∧ ∀ id, id ∈ keys ↔ is_Some (subscriptions e !! id).

Definition isEnumeration (keys : list string) (e : Engine) : bool :=
  bool_decide (NoDup keys) && bool_decide (list_to_set keys = dom (subscriptions e)).

(** What can happen to an engine: calls of its clients and events of the
    environment. An exception is the caller's; the engine lives on.
    [RefreshAll keys] is the call [refreshAll()] when [Object.keys] lists
    the registry as [keys]. *)
Inductive Op :=
  | Subscribe (id : string) (callback : ItemCallback)
  | Unsubscribe (id : string) (callback : ItemCallback)
  | Refresh (id : string)
  | GetItem (id : string)
  | SetLoader (newLoader : Loader)
  | SetDebounce (newDebounce : Z)
  | TimerFires (h : nat)
  | LoadSettles (k : nat)
  | RefreshAll (keys : list string).

Definition step (e : Engine) (op : Op) : Engine :=
  match op with
  | Subscribe id callback => engineOf (subscribe id callback e)
  | Unsubscribe id callback => engineOf (unsubscribe id callback e)
  | Refresh id => engineOf (refresh id e)
  | GetItem id => engineOf (getItem id e)
  | SetLoader l => engineOf (setLoader l e)
  | SetDebounce d => engineOf (setDebounce d e)
  | TimerFires h => default e (timerFires h e)
  | LoadSettles k => default e (loadSettles k e)
  | RefreshAll keys =>
      if isEnumeration keys e then engineOf (refreshAll keys e) else e
  end.

Definition run (ops : list Op) (e : Engine) : Engine := foldl step e ops.

(** The calls received by [callback] as an observer of [id]. *)
Definition received (id : string) (callback : ItemCallback) (l : list Call) : list ItemState :=
  call_state <$> filter (λ c, call_id c = id ∧ call_callback c = callback) l.

(** ** Auxiliary notions used by the statements *)

(** Everything but [itemStates] and the observer calls. *)
Definition sameControl (e e' : Engine) : Prop :=
  optionsWithDefaultValues e' = optionsWithDefaultValues e ∧
  currentLoader e' = currentLoader e ∧
  currentQueue e' = currentQueue e ∧
  subscriptions e' = subscriptions e ∧
  currentTimeout e' = currentTimeout e ∧
  timers e' = timers e ∧
  nextTimer e' = nextTimer e ∧
  pending e' = pending e ∧
  loaderCalls e' = loaderCalls e.

(** Does the call subscribe or refresh [id]? *)
Definition touches (id : string) (op : Op) : bool :=
  match op with
  | Subscribe id' _ | Refresh id' => bool_decide (id' = id)
  | _ => false
  end.

(** [id] has neither a registry entry nor a stored state. *)
Definition unknown (id : string) (e : Engine) : Prop :=
  subscriptions e !! id = None ∧ itemStates e !! id = None.

(** The [data] a reporting step would read for [id]: [{...itemStates[id]}.data]. *)
Definition storedData (e : Engine) (id : string) : option (option T) :=
  data (spread (itemStates e !! id)).

(** The shape shared by the [ids.forEach] loops: [f] runs on the truthy
    entries, in order. *)
Definition forEachId (f : string → Engine → Engine) (ids : Queue) (e : Engine) : Engine :=
  foldl (λ e id,
    match id with
    | Some id => if truthy id then f id e else e
    | None => e
    end) e ids.

(** The item a reconciliation takes for [id]: the first item of the result
    whose identity is [id], when it is truthy. *)
Definition matchingItem (items : list T) (id : string) : option T :=
  match findItem items id with
  | Some item => if truthyItem item then Some item else None
  | None => None
  end.

(** The two passes of a reconciliation, taken apart: the updates of the
    identifiers that have a matching item, and the identifiers that have none. *)
Definition reportSucceeded (items : list T) (ids : Queue) (e : Engine) : Engine :=
  forEachId (λ id e,
    match matchingItem items id with
    | Some item => report (markSucceeded item) id e
    | None => e
    end) ids e.

Fixpoint missingIds (items : list T) (ids : Queue) : list string :=
  match ids with
  | [] => []
  | Some id :: ids' =>
      if truthy id then
        match matchingItem items id with
        | Some _ => missingIds items ids'
        | None => id :: missingIds items ids'
        end
      else missingIds items ids'
  | None :: ids' => missingIds items ids'
  end.

(** Observer calls of a reconciliation against [items]: a call that reports
    the matching item, and a call that reports a failure for an identifier
    without matching item. *)
Definition succeededCall (items : list T) (c : Call) : Prop :=
  ∃ item, matchingItem items (call_id c) = Some item ∧
          data (call_state c) = Some (Some item) ∧
          hasErrors (call_state c) = Some false ∧
          isLoading (call_state c) = Some false.

Definition failedCall (items : list T) (c : Call) : Prop :=
  matchingItem items (call_id c) = None ∧
  hasErrors (call_state c) = Some true ∧
  isLoading (call_state c) = Some false.

(** The flags of a state marked failed. *)
Definition failedState (st : ItemState) : Prop :=
  hasErrors st = Some true ∧ isLoading st = Some false.





(** Events of the environment, as opposed to calls of a client. *)
Definition isEvent (op : Op) : bool :=
  match op with
  | TimerFires _ | LoadSettles _ => true
  | _ => false
  end.






(** At most one timer is armed, and it is the tracked one. *)
Definition armed (e : Engine) : Prop :=
  ∃ h d, timers e = [(h, d)] ∧ currentTimeout e = Some h.

Definition quiet (e : Engine) : Prop := timers e = [] ∨ armed e.

(** ** The engine of a context *)



(** What [addToQueue] does for an identifier when it returns. *)
Definition enqueue (id : string) (e : Engine) : Engine :=
  let e := set_currentQueue (currentQueue e ++ [Some id]) e in
  scheduleLoad (if truthy id then report markQueued id e else e).

(** A state with all four fields. *)
Definition complete (st : ItemState) : Prop :=
  is_Some (isLoading st) ∧ is_Some (isQueued st) ∧
  is_Some (hasErrors st) ∧ is_Some (data st).

(** [callback] is in the observer list of [id]. *)
Definition listening (id : string) (callback : ItemCallback) (e : Engine) : Prop :=
  ∃ callbacks, subscriptions e !! id = Some callbacks ∧ callback ∈ callbacks.

(** Is the call [subscribe(id, callback)]? *)
Definition resubscribes (id : string) (callback : ItemCallback) (op : Op) : bool :=
  match op with
  | Subscribe id' callback' => bool_decide (id' = id ∧ callback' = callback)
  | _ => false
  end.

(** How often [id] occurs in a queue. *)
Definition occurrences (id : string) (q : Queue) : nat :=
  length (filter (λ x, x = Some id) q).

(** The debounce set by the last [setDebounce] of a run, if any. *)
Definition lastDebounce (ops : list Op) (d : Z) : Z :=
  foldl (λ d op, match op with SetDebounce d' => d' | _ => d end) d ops.

(** [callback] does not observe [id], and has been told [r] about it. *)
Definition deaf (id : string) (callback : ItemCallback) (r : list ItemState)
    (e : Engine) : Prop :=
  ¬ listening id callback e ∧ received id callback (calls e) = r.

(** Every registered identifier has a complete stored state, and every
    observer call was made for a non-empty identifier with a complete state. *)
Definition sound (e : Engine) : Prop :=
  (∀ id callbacks, subscriptions e !! id = Some callbacks →
     ∃ st, itemStates e !! id = Some st ∧ complete st) ∧
  Forall (λ c, complete (call_state c) ∧ truthy (call_id c) = true) (calls e).

(** No registry entry has an empty observer list. *)
Definition noEmptyEntry (e : Engine) : Prop :=
  ∀ id callbacks, subscriptions e !! id = Some callbacks → callbacks ≠ [].

End BatchLoader.

Arguments ItemState T : clear implicits.
Arguments LoadResult T : clear implicits.
Arguments Loader T : clear implicits.
Arguments IdGetter T : clear implicits.
Arguments Call T : clear implicits.
Arguments Pending T : clear implicits.
Arguments Engine T : clear implicits.
Arguments Op T : clear implicits.
Arguments Item T : clear implicits.

(** ** The items of the test-suite *)

Record MockedItem := { item_id : string; payload : nat }.

(** The items are objects: all of them are truthy. *)
#[global] Instance MockedItem_truthiness : Truthiness MockedItem := λ _, true.

Definition MOCKED_ITEM : MockedItem := {| item_id := "1"; payload := 10 |}.
Definition MOCKED_ITEM2 : MockedItem := {| item_id := "2"; payload := 20 |}.

(** [loadItems] of the tests, and two loaders that fail. *)
Definition loadItems : Loader MockedItem := λ _, Resolves [MOCKED_ITEM; MOCKED_ITEM2].
Definition rejectingLoader : Loader MockedItem := λ _, Rejects.
Definition throwingLoader : Loader MockedItem := λ _, Throws.

Definition noOptions : PartialOptions := mkPartialOptions None None None.
Definition withKeepCache : PartialOptions := mkPartialOptions (Some 100%Z) None (Some true).

(** The batch of the tests: ["1"] and ["2"] subscribed in one burst, the
    timer has fired and the load is awaited. *)
Definition awaitingBatch (loader : Loader MockedItem) : Engine MockedItem :=
  run item_id [Subscribe "1" 0; Subscribe "2" 1; TimerFires 2]
    (createBatchLoader loader noOptions).

(** The engine after the first test: ["1"] subscribed by observer 0 and
    loaded. *)
Definition loadedEngine (options : PartialOptions) : Engine MockedItem :=
  run item_id [Subscribe "1" 0; TimerFires 1; LoadSettles 0]
    (createBatchLoader loadItems options).

(** Further engines of the tests: both items loaded; an engine with a load
    in flight (rejecting), ["1"] queued twice behind timer 3; and the options
    of the last test. *)
Definition loadedBatch : Engine MockedItem :=
  run item_id [Subscribe "1" 0; Subscribe "2" 1; TimerFires 2; LoadSettles 0]
    (createBatchLoader loadItems noOptions).

Definition busyEngine : Engine MockedItem :=
  run item_id [Subscribe "1" 0; TimerFires 1; Refresh "1"; Refresh "1"]
    (createBatchLoader rejectingLoader noOptions).

Definition withLoadWithoutItems : PartialOptions :=
  mkPartialOptions (Some 100%Z) (Some true) None.

(** Items that are numbers, as in [createBatchLoader<number>]: [0] is falsy.
    The identity of a number is its notation, here for [0] and [1]. *)
#[global] Instance number_truthiness : Truthiness nat := λ n, negb (Nat.eqb n 0).

Definition numberId : IdGetter nat := λ n, match n with 0 => "0" | S _ => "1" end.

Definition loadNumbers : Loader nat := λ _, Resolves [0; 1].

(** Closed facts are settled by evaluation. *)
Ltac evaluate := vm_compute; reflexivity.

Section Properties.

Context {T : Type} `{!Truthiness T} (getId : IdGetter T).

(** ** Reporting steps: what they leave alone *)

Lemma sameControl_refl (e : Engine T) : sameControl e e.
Proof. by repeat split. Qed.

Lemma sameControl_trans (e1 e2 e3 : Engine T) :
  sameControl e1 e2 → sameControl e2 e3 → sameControl e1 e3.
Proof.
  unfold sameControl. intros H12 H23. destruct_and!.
  repeat split; congruence.
Qed.

Lemma report_sameControl mark id (e : Engine T) : sameControl e (report mark id e).
Proof.
  unfold report. destruct (subscriptions e !! id); [|apply sameControl_refl].
  by repeat split.
Qed.


Lemma reportFailed_forEachId ids (e : Engine T) :
  reportFailed ids e = forEachId (report markFailed) ids e.
Proof. reflexivity. Qed.

Lemma forEachId_cons f id ids (e : Engine T) :
  forEachId f (id :: ids) e =
    forEachId f ids
      match id with
      | Some id => if truthy id then f id e else e
      | None => e
      end.
Proof. reflexivity. Qed.


(** A property kept by every update a loop performs is kept by the loop. *)
Lemma forEachId_ind (P : Engine T → Prop) f ids e :
  (∀ id e, Some id ∈ ids → truthy id = true → P e → P (f id e)) →
  P e → P (forEachId f ids e).
Proof.
  revert e. induction ids as [|id ids IH]; intros e Hstep He; [done|].
  rewrite forEachId_cons. apply IH.
  - intros id' e' Hin. apply Hstep. by right.
  - destruct id as [id|]; [|done].
    destruct (truthy id) eqn:Hid; [|done].
    apply Hstep; [by left|done..].
Qed.

(** The item taken for [id] is the one [find] returns, and it is truthy. *)
Lemma matchingItem_Some items id item :
  matchingItem getId items id = Some item ↔
  findItem getId items id = Some item ∧ truthyItem item = true.
Proof.
  unfold matchingItem.
  destruct (findItem getId items id) as [item'|]; [destruct (truthyItem item') eqn:Hitem|];
    split; try (intros [= <-]; done); try (intros [[= <-] ?]; congruence); try done;
    by intros [? _].
Qed.

(** [reportFinished] is the pass of the matched identifiers followed by
    [reportFailed] on the unmatched ones. *)
Lemma reportFinishedStep_passes items ids (acc : Engine T * list string) :
  foldl (reportFinishedStep getId items) acc ids =
    (reportSucceeded getId items ids acc.1, acc.2 ++ missingIds getId items ids).
Proof.
  revert acc. induction ids as [|id ids IH]; intros [e missing].
  - simpl. by rewrite app_nil_r.
  - cbn [foldl]. rewrite IH. unfold reportSucceeded. rewrite forEachId_cons.
    destruct id as [id|]; simpl; [|done].
    destruct (truthy id); [|done].
    unfold matchingItem.
    destruct (findItem getId items id) as [item|]; [destruct (truthyItem item)|];
      simpl; [done|..]; by rewrite <- app_assoc.
Qed.

Lemma reportFinished_passes ids items (e : Engine T) :
  reportFinished getId ids items e =
    reportFailed (Some <$> missingIds getId items ids) (reportSucceeded getId items ids e).
Proof.
  unfold reportFinished. by rewrite reportFinishedStep_passes.
Qed.

Lemma elem_of_missingIds items ids id :
  id ∈ missingIds getId items ids ↔
  Some id ∈ ids ∧ truthy id = true ∧ matchingItem getId items id = None.
Proof.
  induction ids as [|id' ids IH]; simpl.
  - rewrite !elem_of_nil. naive_solver.
  - destruct id' as [id'|];
      [destruct (truthy id') eqn:Hid'; [destruct (matchingItem getId items id') eqn:Hfind|]|];
      rewrite ?elem_of_cons, IH;
      intuition (simplify_eq; auto; congruence).
Qed.

Section ReportingInduction.
Variable P : Engine T → Prop.

Lemma reportLoading_ind ids e :
  (∀ id e, Some id ∈ ids → truthy id = true → P e → P (report markLoading id e)) →
  P e → P (reportLoading ids e).
Proof. apply forEachId_ind. Qed.

Lemma reportFailed_ind ids e :
  (∀ id e, Some id ∈ ids → truthy id = true → P e → P (report markFailed id e)) →
  P e → P (reportFailed ids e).
Proof. apply forEachId_ind. Qed.

Lemma reportSucceeded_ind items ids e :
  (∀ id item e, Some id ∈ ids → truthy id = true → matchingItem getId items id = Some item →
     P e → P (report (markSucceeded item) id e)) →
  P e → P (reportSucceeded getId items ids e).
Proof.
  intros Hstep. apply forEachId_ind. intros id e' Hin Hid He'.
  destruct (matchingItem getId items id) eqn:Hfind; eauto.
Qed.

Lemma reportFinished_ind ids items e :
  (∀ id item e, Some id ∈ ids → truthy id = true → matchingItem getId items id = Some item →
     P e → P (report (markSucceeded item) id e)) →
  (∀ id e, Some id ∈ ids → truthy id = true → matchingItem getId items id = None →
     P e → P (report markFailed id e)) →
  P e → P (reportFinished getId ids items e).
Proof.
  intros Hsucc Hfail He. rewrite reportFinished_passes.
  apply reportFailed_ind; [|by apply reportSucceeded_ind].
  intros id e' Hin Hid. apply list_elem_of_fmap in Hin as (id' & [= <-] & Hin).
  apply elem_of_missingIds in Hin as (? & ? & ?). by apply Hfail.
Qed.
End ReportingInduction.

Lemma reportLoading_sameControl ids (e : Engine T) : sameControl e (reportLoading ids e).
Proof.
  apply (reportLoading_ind (sameControl e)); [|apply sameControl_refl].
  intros id e' _ _ He'. eapply sameControl_trans; [done|apply report_sameControl].
Qed.

Lemma reportFailed_sameControl ids (e : Engine T) : sameControl e (reportFailed ids e).
Proof.
  apply (reportFailed_ind (sameControl e)); [|apply sameControl_refl].
  intros id e' _ _ He'. eapply sameControl_trans; [done|apply report_sameControl].
Qed.

Lemma reportFinished_sameControl ids items (e : Engine T) :
  sameControl e (reportFinished getId ids items e).
Proof.
  apply (reportFinished_ind (sameControl e)); [| |apply sameControl_refl].
  - intros id item e' _ _ _ He'. eapply sameControl_trans; [done|apply report_sameControl].
  - intros id e' _ _ _ He'. eapply sameControl_trans; [done|apply report_sameControl].
Qed.

(** ** [refresh] *)

Lemma reportQueuing_registered (e : Engine T) id callbacks :
  subscriptions e !! id = Some callbacks → truthy id = true →
  reportQueuing (Some id) e =
    Returned () (report markQueued id e).
Proof.
  intros Hsub Hid. unfold reportQueuing, report. by rewrite Hid, Hsub.
Qed.

Lemma reportQueuing_falsy (e : Engine T) id :
  truthy id = false → reportQueuing (Some id) e = Returned () e.
Proof. intros Hid. unfold reportQueuing. by rewrite Hid. Qed.

(** The [forEach] of [reportQueuing] on a missing observer list. *)
Lemma refresh_unregistered (e : Engine T) (id : string) :
  truthy id = true →
  subscriptions e !! id = None →
  refresh id e =
    Threw (store id (markQueued (spread (itemStates e !! id)))
             (set_currentQueue (currentQueue e ++ [Some id]) e)).
Proof.
  intros Hid Hsub. unfold refresh, addToQueue, reportQueuing. simpl.
  by rewrite Hid, Hsub.
Qed.

(** C1 (what the code does): [refresh(id)] on a non-empty identifier without
    registry entry is not a no-op. The identifier is pushed on the queue, a
    state holding the previous fields with the queued flag set is written for
    it (so that [getItem(id)] answers that state from then on), and the
    [forEach] on the missing observer list throws to the caller before any
    timer is armed. No observer is called. *)
Theorem refresh_unregistered_throws (e : Engine T) (id : string) :
  truthy id = true →
  subscriptions e !! id = None →
  ∃ e', refresh id e = Threw e' ∧
        itemStates e' !! id = Some (markQueued (spread (itemStates e !! id))) ∧
        getItem id e' = Returned (State (markQueued (spread (itemStates e !! id)))) e' ∧
        currentQueue e' = currentQueue e ++ [Some id] ∧
        timers e' = timers e ∧
        currentTimeout e' = currentTimeout e ∧
        calls e' = calls e.
Proof.
  intros Hid Hsub. rewrite (refresh_unregistered e id Hid Hsub).
  eexists. split; [reflexivity|].
  unfold getItem, readProperty. simpl. by rewrite lookup_insert_eq.
Qed.

(** ** [subscribe] and its disposer *)

Lemma readProperty_own {A} (obj : gmap string A) name a :
  obj !! name = Some a → readProperty obj name = Own a.
Proof. intros Hname. unfold readProperty. by rewrite Hname. Qed.

Lemma readProperty_undefined {A} (obj : gmap string A) name :
  obj !! name = None → inherited name = false → readProperty obj name = Undefined.
Proof. intros Hname Hown. unfold readProperty. by rewrite Hname, Hown. Qed.

Lemma readProperty_inherited {A} (obj : gmap string A) name :
  obj !! name = None → inherited name = true → readProperty obj name = Inherited name.
Proof. intros Hname Hinh. unfold readProperty. by rewrite Hname, Hinh. Qed.

Lemma subscribe_new (e : Engine T) id callback :
  subscriptions e !! id = None →
  inherited id = false →
  subscribe id callback e =
    Returned ()
      (set_subscriptions (<[id := [callback]]> (subscriptions e))
         (scheduleLoad
            (set_currentQueue (currentQueue e ++ [Some id])
               (set_itemStates (<[id := NEW_ITEM_STATE]> (itemStates e)) e)))).
Proof.
  intros Hsub Hown. unfold subscribe. rewrite (readProperty_undefined _ _ Hsub Hown).
  unfold addToQueue, reportQueuing, readProperty. simpl. rewrite lookup_insert_eq.
  destruct (truthy id); simpl.
  - unfold notify, store. simpl. rewrite app_nil_r, lookup_insert_eq.
    rewrite !insert_insert_eq.
    unfold scheduleLoad. simpl.
    destruct (currentTimeout e); simpl; rewrite lookup_insert_eq, insert_insert_eq;
      destruct e; reflexivity.
  - unfold scheduleLoad. simpl.
    destruct (currentTimeout e); simpl; rewrite lookup_insert_eq, insert_insert_eq;
      destruct e; reflexivity.
Qed.

Lemma subscribe_registered (e : Engine T) id callback callbacks :
  subscriptions e !! id = Some callbacks →
  subscribe id callback e =
    Returned () (set_subscriptions (<[id := callbacks ++ [callback]]> (subscriptions e)) e).
Proof.
  intros Hsub. unfold subscribe. rewrite (readProperty_own _ _ _ Hsub). simpl.
  by rewrite (readProperty_own _ _ _ Hsub).
Qed.

(** On a name inherited from [Object.prototype] that has no entry,
    [!subscriptions[id]] is false and [push] is missing. *)
Lemma subscribe_inherited (e : Engine T) id callback :
  subscriptions e !! id = None →
  inherited id = true →
  subscribe id callback e = Threw e.
Proof.
  intros Hsub Hinh. unfold subscribe. rewrite (readProperty_inherited _ _ Hsub Hinh).
  simpl. by rewrite (readProperty_inherited _ _ Hsub Hinh).
Qed.

(** The three ways of a [subscribe]. *)
Lemma subscribe_cases (e : Engine T) id callback :
  (∃ callbacks, subscriptions e !! id = Some callbacks ∧
     subscribe id callback e =
       Returned ()
         (set_subscriptions (<[id := callbacks ++ [callback]]> (subscriptions e)) e)) ∨
  (subscriptions e !! id = None ∧ inherited id = false ∧
     subscribe id callback e =
       Returned ()
         (set_subscriptions (<[id := [callback]]> (subscriptions e))
            (scheduleLoad
               (set_currentQueue (currentQueue e ++ [Some id])
                  (set_itemStates (<[id := NEW_ITEM_STATE]> (itemStates e)) e))))) ∨
  (subscriptions e !! id = None ∧ inherited id = true ∧
     subscribe id callback e = Threw e).
Proof.
  destruct (subscriptions e !! id) as [callbacks|] eqn:Hsub.
  - left. exists callbacks. split; [done|]. by apply subscribe_registered.
  - right. destruct (inherited id) eqn:Hinh.
    + right. repeat split. by apply subscribe_inherited.
    + left. repeat split. by apply subscribe_new.
Qed.


(** C10: without [keepCache], once the disposer has removed the last
    observer of [id] a second call of the same disposer throws, for it
    filters the observer list of an entry that is gone. *)
Theorem unsubscribe_twice_throws (e : Engine T) (id : string) (callback : ItemCallback)
    (callbacks : list ItemCallback) :
  keepCache (optionsWithDefaultValues e) = false →
  subscriptions e !! id = Some callbacks →
  filter (λ c, c ≠ callback) callbacks = [] →
  ∃ e', unsubscribe id callback e = Returned () e' ∧
        unsubscribe id callback e' = Threw e'.
Proof.
  intros Hkeep Hsub Hlast. unfold unsubscribe at 1.
  rewrite Hsub, Hlast. simpl. rewrite Hkeep. simpl.
  eexists. split; [reflexivity|].
  unfold unsubscribe. simpl. by rewrite lookup_delete_eq.
Qed.

(** C7 (amended): what decides is the registry entry, not the observers.
    For an identifier that is no name of [Object.prototype]: without an
    entry for [id], [subscribe] stores the default state (queued), pushes
    [id] on the queue, arms a timer and registers the callback; with an
    entry, even one whose observer list is empty, it only appends the
    callback. *)
Theorem subscribe_enqueues_iff_unregistered (e : Engine T) (id : string)
    (callback : ItemCallback) :
  inherited id = false →
  match subscriptions e !! id with
  | None =>
      ∃ e', subscribe id callback e = Returned () e' ∧
            itemStates e' !! id = Some NEW_ITEM_STATE ∧
            isQueued (@NEW_ITEM_STATE T) = Some true ∧
            currentQueue e' = currentQueue e ++ [Some id] ∧
            subscriptions e' !! id = Some [callback] ∧
            currentTimeout e' = Some (nextTimer e) ∧
            nextTimer e ∈ (timers e').*1 ∧
            calls e' = calls e
  | Some callbacks =>
      subscribe id callback e =
        Returned () (set_subscriptions (<[id := callbacks ++ [callback]]> (subscriptions e)) e)
  end.
Proof.
  intros Hown. destruct (subscriptions e !! id) as [callbacks|] eqn:Hsub.
  - by apply subscribe_registered.
  - rewrite (subscribe_new _ _ _ Hsub Hown). eexists. split; [reflexivity|].
    unfold scheduleLoad. simpl.
    destruct (currentTimeout e); simpl;
      rewrite !lookup_insert_eq, fmap_app; simpl;
      repeat split; set_solver.
Qed.

(** ** Reporting steps and the stored data *)

Lemma report_lookup mark id (e : Engine T) callbacks :
  subscriptions e !! id = Some callbacks →
  itemStates (report mark id e) !! id = Some (mark (spread (itemStates e !! id))).
Proof. intros Hsub. unfold report. rewrite Hsub. simpl. by rewrite lookup_insert_eq. Qed.

Lemma report_lookup_ne mark id id' (e : Engine T) :
  id ≠ id' → itemStates (report mark id e) !! id' = itemStates e !! id'.
Proof.
  intros Hne. unfold report. destruct (subscriptions e !! id); [|done].
  simpl. by rewrite lookup_insert_ne.
Qed.

Lemma report_storedData mark id (e : Engine T) id' :
  (∀ st, data (mark st) = data st) →
  storedData (report mark id e) id' = storedData e id'.
Proof.
  intros Hmark. unfold storedData.
  destruct (decide (id = id')) as [<-|Hne]; [|by rewrite report_lookup_ne].
  destruct (subscriptions e !! id) as [callbacks|] eqn:Hsub.
  - rewrite (report_lookup _ _ _ _ Hsub). simpl. by rewrite Hmark.
  - unfold report. by rewrite Hsub.
Qed.

(** C9: the reporting steps write the previous state with flags changed.
    Marking queued, loading or failed leaves the stored data of every
    identifier as it was; after a reconciliation the stored data of an
    identifier is what it was or the returned item that matches it. A
    guarded update of [id] stores the marked previous state of [id] and
    touches no other identifier. *)
Theorem reporting_preserves_data (e : Engine T) (id' : string) :
  (∀ st : ItemState T,
     data (markQueued st) = data st ∧ data (markLoading st) = data st ∧
     data (markFailed st) = data st ∧
     isLoading (markQueued st) = isLoading st ∧ hasErrors (markQueued st) = hasErrors st ∧
     isQueued (markFailed st) = isQueued st ∧
     ∀ item, isQueued (markSucceeded item st) = isQueued st) ∧
  (∀ id, storedData (engineOf (reportQueuing id e)) id' = storedData e id') ∧
  (∀ ids, storedData (reportLoading ids e) id' = storedData e id') ∧
  (∀ ids, storedData (reportFailed ids e) id' = storedData e id') ∧
  (∀ ids items,
     storedData (reportFinished getId ids items e) id' = storedData e id' ∨
     ∃ item, findItem getId items id' = Some item ∧
             storedData (reportFinished getId ids items e) id' = Some (Some item)) ∧
  (∀ mark id callbacks,
     subscriptions e !! id = Some callbacks →
     itemStates (report mark id e) !! id = Some (mark (spread (itemStates e !! id))) ∧
     (id ≠ id' → itemStates (report mark id e) !! id' = itemStates e !! id')).
Proof.
  repeat apply conj.
  - done.
  - intros [id|]; [|done]. unfold reportQueuing.
    destruct (truthy id); [|done].
    destruct (subscriptions e !! id) as [callbacks|] eqn:Hsub; simpl.
    + rewrite <- (report_storedData markQueued id e id') by done.
      unfold report. by rewrite Hsub.
    + unfold storedData. simpl.
      destruct (decide (id = id')) as [<-|Hne].
      * by rewrite lookup_insert_eq.
      * by rewrite lookup_insert_ne.
  - intros ids. apply (reportLoading_ind (λ e', storedData e' id' = storedData e id')); [|done].
    intros id e1 _ _ <-. by apply report_storedData.
  - intros ids. apply (reportFailed_ind (λ e', storedData e' id' = storedData e id')); [|done].
    intros id e1 _ _ <-. by apply report_storedData.
  - intros ids items.
    apply (reportFinished_ind (λ e',
      storedData e' id' = storedData e id' ∨
      ∃ item, findItem getId items id' = Some item ∧ storedData e' id' = Some (Some item)));
      [| |by left].
    + intros id item e1 _ _ Hfind He1.
      destruct (decide (id = id')) as [<-|Hne].
      * destruct (subscriptions e1 !! id) as [callbacks|] eqn:Hsub.
        -- right. exists item. split; [by apply matchingItem_Some in Hfind as [? _]|].
           unfold storedData. by rewrite (report_lookup _ _ _ _ Hsub).
        -- unfold report. by rewrite Hsub.
      * unfold storedData in *. by rewrite report_lookup_ne.
    + intros id e1 _ _ _ He1. by rewrite report_storedData.
  - intros mark id callbacks Hsub. split.
    + by eapply report_lookup.
    + intros Hne. by apply report_lookup_ne.
Qed.

(** ** Reconciliation *)

Lemma report_subscriptions mark id (e : Engine T) :
  subscriptions (report mark id e) = subscriptions e.
Proof. apply report_sameControl. Qed.

(** If the update of [id] establishes a property that no update destroys,
    the property holds after a loop that visits [id]. *)
Lemma forEachId_visited (Q R : Engine T → Prop) f ids id e :
  (∀ id' e, R e → R (f id' e)) →
  (∀ e, R e → Q (f id e)) →
  (∀ id' e, R e → Q e → Q (f id' e)) →
  Some id ∈ ids → truthy id = true → R e → Q (forEachId f ids e).
Proof.
  intros HR Hest Hpres. revert e.
  induction ids as [|x ids IH]; intros e Hin Hid He.
  - by apply elem_of_nil in Hin.
  - rewrite forEachId_cons.
    set (e1 := match x with Some id0 => if truthy id0 then f id0 e else e | None => e end).
    assert (R e1) as He1.
    { subst e1. destruct x as [id0|]; [|done]. destruct (truthy id0); auto. }
    destruct (decide (Some id ∈ ids)) as [Hin'|Hnin]; [by apply IH|].
    apply elem_of_cons in Hin as [<-|?]; [|done].
    assert (Q e1 ∧ R e1) as HQR.
    { split; [|done]. subst e1. rewrite Hid. by apply Hest. }
    apply (forEachId_ind (λ e', Q e' ∧ R e')); [|done].
    intros id' e' _ _ [??]. split; auto.
Qed.

Lemma reportFailed_visited ids id (e : Engine T) :
  Some id ∈ ids → truthy id = true → is_Some (subscriptions e !! id) →
  ∃ st, itemStates (reportFailed ids e) !! id = Some st ∧ failedState st.
Proof.
  intros Hin Hid Hsub. rewrite reportFailed_forEachId.
  apply (forEachId_visited
           (λ e', ∃ st, itemStates e' !! id = Some st ∧ failedState st)
           (λ e', is_Some (subscriptions e' !! id)) _ _ id); try done.
  - intros id' e'. by rewrite report_subscriptions.
  - intros e' [callbacks Hsub']. rewrite (report_lookup _ _ _ _ Hsub').
    by eexists.
  - intros id' e' [callbacks Hsub'] HQ.
    destruct (decide (id' = id)) as [->|Hne].
    + rewrite (report_lookup _ _ _ _ Hsub'). by eexists.
    + by rewrite report_lookup_ne.
Qed.

Lemma reportFailed_lookup_notin ids id (e : Engine T) :
  Some id ∉ ids → itemStates (reportFailed ids e) !! id = itemStates e !! id.
Proof.
  intros Hnin.
  apply (reportFailed_ind (λ e', itemStates e' !! id = itemStates e !! id)); [|done].
  intros id' e' Hin _ <-. apply report_lookup_ne. by intros ->.
Qed.

Lemma report_unregistered mark id (e : Engine T) :
  subscriptions e !! id = None → report mark id e = e.
Proof. intros Hsub. unfold report. by rewrite Hsub. Qed.

Lemma report_calls mark id (e : Engine T) :
  calls (report mark id e) =
    calls e ++ match subscriptions e !! id with
               | Some callbacks =>
                   map (λ callback, mkCall id callback (mark (spread (itemStates e !! id))))
                     callbacks
               | None => []
               end.
Proof.
  unfold report. destruct (subscriptions e !! id); simpl; [done|by rewrite app_nil_r].
Qed.

Lemma reportFailed_calls items ids (e : Engine T) :
  (∀ id, Some id ∈ ids → matchingItem getId items id = None) →
  ∃ failed, calls (reportFailed ids e) = calls e ++ failed ∧
            Forall (failedCall getId items) failed.
Proof.
  intros Hids.
  apply (reportFailed_ind (λ e', ∃ failed, calls e' = calls e ++ failed ∧
                                   Forall (failedCall getId items) failed)).
  - intros id e' Hin _ (failed & Hcalls & Hfailed).
    rewrite report_calls, Hcalls, <- app_assoc. eexists. split; [done|].
    apply Forall_app. split; [done|].
    destruct (subscriptions e' !! id); [|done].
    apply Forall_forall. intros c Hc.
    apply list_elem_of_In, in_map_iff in Hc as (callback & <- & _).
    split; [by apply Hids|done].
  - exists []. by rewrite app_nil_r.
Qed.

Lemma reportSucceeded_calls items ids (e : Engine T) :
  ∃ succeeded, calls (reportSucceeded getId items ids e) = calls e ++ succeeded ∧
               Forall (succeededCall getId items) succeeded.
Proof.
  apply (reportSucceeded_ind (λ e', ∃ succeeded, calls e' = calls e ++ succeeded ∧
                                      Forall (succeededCall getId items) succeeded)).
  - intros id item e' _ _ Hfind (succeeded & Hcalls & Hsucceeded).
    rewrite report_calls, Hcalls, <- app_assoc. eexists. split; [done|].
    apply Forall_app. split; [done|].
    destruct (subscriptions e' !! id); [|done].
    apply Forall_forall. intros c Hc.
    apply list_elem_of_In, in_map_iff in Hc as (callback & <- & _).
    by exists item.
  - exists []. by rewrite app_nil_r.
Qed.

Lemma reportSucceeded_sameControl items ids (e : Engine T) :
  sameControl e (reportSucceeded getId items ids e).
Proof.
  apply (reportSucceeded_ind (sameControl e)); [|apply sameControl_refl].
  intros id item e' _ _ _ He'. eapply sameControl_trans; [done|apply report_sameControl].
Qed.

Lemma reportSucceeded_visited items ids id item (e : Engine T) :
  Some id ∈ ids → truthy id = true → is_Some (subscriptions e !! id) →
  matchingItem getId items id = Some item →
  ∃ st, itemStates (reportSucceeded getId items ids e) !! id = Some st ∧
        data st = Some (Some item) ∧ hasErrors st = Some false ∧ isLoading st = Some false.
Proof.
  intros Hin Hid Hsub Hfind. unfold reportSucceeded.
  apply (forEachId_visited
           (λ e', ∃ st, itemStates e' !! id = Some st ∧
                        data st = Some (Some item) ∧ hasErrors st = Some false ∧
                        isLoading st = Some false)
           (λ e', is_Some (subscriptions e' !! id)) _ _ id); try done.
  - intros id' e'. destruct (matchingItem getId items id'); [|done].
    by rewrite report_subscriptions.
  - intros e' [callbacks Hsub']. rewrite Hfind, (report_lookup _ _ _ _ Hsub').
    by eexists.
  - intros id' e' [callbacks Hsub'] HQ.
    destruct (decide (id' = id)) as [->|Hne].
    + rewrite Hfind, (report_lookup _ _ _ _ Hsub'). by eexists.
    + destruct (matchingItem getId items id'); [|done]. by rewrite report_lookup_ne.
Qed.

(** What [reportFinished] leaves for an identifier of the snapshot that is
    non-empty and registered. *)
Lemma reportFinished_visited items ids id (e : Engine T) :
  Some id ∈ ids → truthy id = true → is_Some (subscriptions e !! id) →
  ∃ st, itemStates (reportFinished getId ids items e) !! id = Some st ∧
        match matchingItem getId items id with
        | Some item =>
            data st = Some (Some item) ∧ hasErrors st = Some false ∧
            isLoading st = Some false
        | None => failedState st
        end.
Proof.
  intros Hin Hid Hsub. rewrite reportFinished_passes.
  destruct (matchingItem getId items id) as [item|] eqn:Hfind.
  - rewrite reportFailed_lookup_notin.
    + by apply reportSucceeded_visited.
    + intros Hmiss. apply list_elem_of_fmap in Hmiss as (id' & [= <-] & Hmiss).
      apply elem_of_missingIds in Hmiss as (_ & _ & ?). congruence.
  - apply reportFailed_visited; [|done|].
    + apply list_elem_of_fmap_2. by apply elem_of_missingIds.
    + destruct (reportSucceeded_sameControl items ids e) as (_ & _ & _ & -> & _). done.
Qed.

Lemma reportFinished_calls items ids (e : Engine T) :
  ∃ succeeded failed,
    calls (reportFinished getId ids items e) = calls e ++ succeeded ++ failed ∧
    Forall (succeededCall getId items) succeeded ∧
    Forall (failedCall getId items) failed.
Proof.
  rewrite reportFinished_passes.
  destruct (reportSucceeded_calls items ids e) as (succeeded & Hs & Hsucceeded).
  destruct (reportFailed_calls items (Some <$> missingIds getId items ids)
              (reportSucceeded getId items ids e)) as (failed & Hf & Hfailed).
  { intros id Hmiss. apply list_elem_of_fmap in Hmiss as (id' & [= <-] & Hmiss).
    by apply elem_of_missingIds in Hmiss as (_ & _ & ?). }
  exists succeeded, failed. split; [|done].
  by rewrite Hf, Hs, <- app_assoc.
Qed.

Lemma report_lookup_unregistered mark id id' (e : Engine T) :
  subscriptions e !! id = None →
  itemStates (report mark id' e) !! id = itemStates e !! id.
Proof.
  intros Hsub. destruct (decide (id' = id)) as [->|Hne].
  - by rewrite report_unregistered.
  - by apply report_lookup_ne.
Qed.

(** An identifier without registry entry is skipped by every reporting step. *)
Lemma reportFinished_lookup_unregistered ids items id (e : Engine T) :
  subscriptions e !! id = None →
  itemStates (reportFinished getId ids items e) !! id = itemStates e !! id.
Proof.
  intros Hsub.
  apply (reportFinished_ind
           (λ e', subscriptions e' !! id = None ∧
                  itemStates e' !! id = itemStates e !! id)); [| |done].
  - intros id' item e' _ _ _ [Hsub' <-].
    by rewrite report_subscriptions, report_lookup_unregistered.
  - intros id' e' _ _ _ [Hsub' <-].
    by rewrite report_subscriptions, report_lookup_unregistered.
Qed.

Lemma reportFailed_lookup_unregistered ids id (e : Engine T) :
  subscriptions e !! id = None →
  itemStates (reportFailed ids e) !! id = itemStates e !! id.
Proof.
  intros Hsub.
  apply (reportFailed_ind
           (λ e', subscriptions e' !! id = None ∧
                  itemStates e' !! id = itemStates e !! id)); [|done].
  intros id' e' _ _ [Hsub' <-].
  by rewrite report_subscriptions, report_lookup_unregistered.
Qed.

Lemma loadSettles_pending (e : Engine T) k p :
  pending e !! k = Some p →
  loadSettles getId k e = Some (afterAwait getId p (set_pending (delete k (pending e)) e)).
Proof. intros Hp. unfold loadSettles. by rewrite Hp. Qed.

(** C4 (amended): when the awaited load resolves, every non-empty identifier
    of the snapshot that has a registry entry is marked succeeded with the
    data of the returned item that matches it (the first returned item whose
    identity it is, if that item is truthy), or marked failed when there is
    no such item; an identifier without registry entry keeps what is stored
    for it; the reconciliation is the pass of the matched identifiers
    followed by one failure pass over the unmatched ones, so that its
    observer calls are the success calls followed by the failure calls. *)
Theorem resolved_load_reconciles (e : Engine T) (k : nat) (ids : Queue) (items : list T) :
  pending e !! k = Some (ids, Some items) →
  ∃ e', loadSettles getId k e = Some e' ∧
    (∀ id, Some id ∈ ids → truthy id = true → is_Some (subscriptions e !! id) →
       ∃ st, itemStates e' !! id = Some st ∧
             match findItem getId items id with
             | Some item =>
                 if truthyItem item
                 then data st = Some (Some item) ∧ hasErrors st = Some false ∧
                      isLoading st = Some false
                 else failedState st
             | None => failedState st
             end) ∧
    (∀ id, subscriptions e !! id = None → itemStates e' !! id = itemStates e !! id) ∧
    (∃ succeeded failed,
       calls e' = calls e ++ succeeded ++ failed ∧
       Forall (succeededCall getId items) succeeded ∧
       Forall (failedCall getId items) failed) ∧
    subscriptions e' = subscriptions e ∧
    e' = set_currentTimeout None
           (reportFailed (Some <$> missingIds getId items ids)
              (reportSucceeded getId items ids (set_pending (delete k (pending e)) e))).
Proof.
  intros Hp. rewrite (loadSettles_pending _ _ _ Hp).
  eexists. split; [reflexivity|].
  unfold afterAwait. simpl.
  set (e0 := set_pending _ e).
  repeat apply conj.
  - intros id Hin Hid Hsub.
    destruct (reportFinished_visited items ids id e0 Hin Hid Hsub) as (st & Hst & Hmark).
    exists st. split; [exact Hst|]. unfold matchingItem in Hmark.
    destruct (findItem getId items id) as [item|]; [|exact Hmark].
    by destruct (truthyItem item).
  - intros id Hsub. by rewrite reportFinished_lookup_unregistered.
  - apply (reportFinished_calls items ids e0).
  - apply (reportFinished_sameControl ids items e0).
  - by rewrite reportFinished_passes.
Qed.

(** C5 (amended): when the awaited load rejects, or when the loader throws
    as the timer fires, every non-empty identifier of the snapshot that has a
    registry entry is left marked failed (errors, not loading); an identifier
    without registry entry keeps what is stored for it. Both are
    events of the environment that always complete: nothing is thrown to a
    caller. Nothing is retried: no loader call is made and no timer is armed
    by the failure handling, and the queue is not refilled. *)
Theorem failed_load_marks_batch (e : Engine T) (ids : Queue) (k h : nat) :
  (pending e !! k = Some (ids, None) →
   ∃ e', loadSettles getId k e = Some e' ∧
     (∀ id, Some id ∈ ids → truthy id = true → is_Some (subscriptions e !! id) →
        ∃ st, itemStates e' !! id = Some st ∧ failedState st) ∧
     (∀ id, subscriptions e !! id = None → itemStates e' !! id = itemStates e !! id) ∧
     loaderCalls e' = loaderCalls e ∧
     timers e' = timers e ∧
     currentQueue e' = currentQueue e ∧
     pending e' = delete k (pending e)) ∧
  (h ∈ (timers e).*1 →
   currentLoader e (filterDefined (currentQueue e)) = Throws →
   ∃ e', timerFires h e = Some e' ∧
     (∀ id, Some id ∈ currentQueue e → truthy id = true →
        is_Some (subscriptions e !! id) →
        ∃ st, itemStates e' !! id = Some st ∧ failedState st) ∧
     loaderCalls e' = loaderCalls e ++ [filterDefined (currentQueue e)] ∧
     timers e' = filter (λ t, t.1 ≠ h) (timers e) ∧
     currentQueue e' = [] ∧
     pending e' = pending e).
Proof.
  split.
  - intros Hp. rewrite (loadSettles_pending _ _ _ Hp).
    eexists. split; [reflexivity|].
    unfold afterAwait. simpl. set (e0 := set_pending _ e).
    destruct (reportFailed_sameControl ids e0) as (_ & _ & Hq & _ & _ & Ht & _ & Hpend & Hl).
    repeat apply conj; try done.
    + intros id Hin Hid Hsub. by apply reportFailed_visited.
    + intros id Hsub. by rewrite reportFailed_lookup_unregistered.
  - intros Hh Hthrows. unfold timerFires. rewrite bool_decide_eq_true_2 by done.
    eexists. split; [reflexivity|].
    unfold timerCallback. simpl.
    set (e0 := set_currentQueue [] _).
    destruct (reportLoading_sameControl (currentQueue e) e0)
      as (_ & Hl & Hq & Hsub1 & _ & Ht & _ & Hpend & Hcalls).
    rewrite Hl. simpl. rewrite Hthrows.
    set (e1 := set_loaderCalls _ _).
    destruct (reportFailed_sameControl (currentQueue e) e1)
      as (_ & _ & Hq2 & _ & _ & Ht2 & _ & Hpend2 & Hcalls2).
    simpl. rewrite Hq2, Ht2, Hpend2, Hcalls2. simpl.
    rewrite Hq, Ht, Hpend, Hcalls. simpl.
    repeat apply conj; try done.
    intros id Hin Hid Hsub. apply reportFailed_visited; [done..|].
    simpl. by rewrite Hsub1.
Qed.

(** ** What one observer sees *)

Lemma received_app id callback (l1 l2 : list (Call T)) :
  received id callback (l1 ++ l2) = received id callback l1 ++ received id callback l2.
Proof. unfold received. by rewrite filter_app, fmap_app. Qed.

Lemma received_notify_ne id callback id' (st : ItemState T) callbacks :
  id' ≠ id →
  received id callback (map (λ c, mkCall id' c st) callbacks) = [].
Proof.
  intros Hne. unfold received. induction callbacks as [|c callbacks IH]; [done|].
  simpl. rewrite filter_cons_False; [done|]. simpl. by intros [? _].
Qed.















Lemma refresh_registered (e : Engine T) id callbacks :
  truthy id = true → subscriptions e !! id = Some callbacks →
  refresh id e =
    Returned ()
      (scheduleLoad (report markQueued id (set_currentQueue (currentQueue e ++ [Some id]) e))).
Proof.
  intros Hid Hsub. unfold refresh, addToQueue.
  by rewrite (reportQueuing_registered _ _ callbacks).
Qed.

Lemma scheduleLoad_armed (e : Engine T) :
  currentTimeout (scheduleLoad e) = Some (nextTimer e) ∧
  nextTimer e ∈ (timers (scheduleLoad e)).*1.
Proof.
  unfold scheduleLoad. destruct (currentTimeout e); simpl;
    rewrite fmap_app; simpl; split; set_solver.
Qed.

Lemma scheduleLoad_frame (e : Engine T) :
  subscriptions (scheduleLoad e) = subscriptions e ∧
  itemStates (scheduleLoad e) = itemStates e ∧
  calls (scheduleLoad e) = calls e ∧
  currentQueue (scheduleLoad e) = currentQueue e ∧
  currentLoader (scheduleLoad e) = currentLoader e ∧
  pending (scheduleLoad e) = pending e ∧
  loaderCalls (scheduleLoad e) = loaderCalls e.
Proof. unfold scheduleLoad. by destruct (currentTimeout e). Qed.



(** ** Bursts of enqueues *)

Lemma run_cons op ops (e : Engine T) :
  run getId (op :: ops) e = run getId ops (step getId e op).
Proof. reflexivity. Qed.

(** Without armed timer nor awaited load, the environment has nothing to do. *)
Lemma events_idle events (e : Engine T) :
  timers e = [] → pending e = [] →
  Forall (λ op, isEvent op = true) events →
  run getId events e = e.
Proof.
  intros Ht Hp Hevents. induction Hevents as [|op events Hop _ IH]; [done|].
  rewrite run_cons.
  assert (step getId e op = e) as ->; [|done].
  destruct op as [| | | | | |h|k|]; try done; simpl.
  - unfold timerFires. rewrite Ht. by rewrite bool_decide_eq_false_2 by set_solver.
  - unfold loadSettles. by rewrite Hp.
Qed.

(** C3 (what the code does): on a fresh engine, a burst made of one
    [refresh] of a non-empty identifier that is not subscribed enqueues the
    identifier but arms no timer: whatever the environment does afterwards,
    the identifier stays in the queue and the loader is never called. *)
Theorem lone_refresh_never_loads (loader : Loader T) (options : PartialOptions)
    (id : string) (events : list (Op T)) :
  loadWithoutItems (withDefaultValues options) = false →
  truthy id = true →
  Forall (λ op, isEvent op = true) events →
  let e := run getId (Refresh id :: events) (createBatchLoader loader options) in
  currentQueue e = [Some id] ∧ loaderCalls e = [] ∧ timers e = [] ∧ pending e = [].
Proof.
  intros Hopt Hid Hevents. rewrite run_cons.
  unfold createBatchLoader. cbn [optionsWithDefaultValues]. rewrite Hopt.
  set (e0 := mkEngine _ _ _ _ _ _ _ _ _ _ _).
  cbn [step]. rewrite (refresh_unregistered e0 id Hid (lookup_empty _)).
  cbn [engineOf]. by rewrite events_idle.
Qed.

Lemma scheduleLoad_quiet (e : Engine T) : quiet e → armed (scheduleLoad e).
Proof.
  unfold scheduleLoad, armed.
  intros [Ht|(h & d & Ht & Hc)].
  - destruct (currentTimeout e); simpl; rewrite Ht; by eexists _, _.
  - rewrite Hc. simpl. rewrite Ht. rewrite filter_cons_False; [|simpl; by intros ?].
    by eexists _, _.
Qed.





(** ** [addToQueue] on registered identifiers, and [refreshAll] *)

Lemma addToQueue_registered (e : Engine T) id :
  is_Some (subscriptions e !! id) →
  addToQueue (Some id) e = Returned () (enqueue id e).
Proof.
  intros [callbacks Hsub]. unfold addToQueue, enqueue.
  destruct (truthy id) eqn:Hid.
  - by rewrite (reportQueuing_registered _ _ callbacks).
  - by rewrite reportQueuing_falsy.
Qed.

Lemma addToQueue_sentinel (e : Engine T) :
  addToQueue None e =
    Returned () (scheduleLoad (set_currentQueue (currentQueue e ++ [None]) e)).
Proof. reflexivity. Qed.

Lemma enqueue_frame id (e : Engine T) :
  subscriptions (enqueue id e) = subscriptions e ∧
  currentQueue (enqueue id e) = currentQueue e ++ [Some id] ∧
  currentLoader (enqueue id e) = currentLoader e ∧
  pending (enqueue id e) = pending e ∧
  loaderCalls (enqueue id e) = loaderCalls e ∧
  optionsWithDefaultValues (enqueue id e) = optionsWithDefaultValues e.
Proof.
  unfold enqueue. set (e0 := set_currentQueue _ e).
  set (e1 := if truthy id then report markQueued id e0 else e0).
  assert (sameControl e0 e1) as (Ho & Hl & Hq & Hsub & _ & _ & _ & Hp & Hlc).
  { subst e1. destruct (truthy id); [apply report_sameControl|apply sameControl_refl]. }
  destruct (scheduleLoad_frame e1) as (Hsub' & _ & _ & Hq' & Hl' & Hp' & Hlc').
  rewrite Hsub', Hq', Hl', Hp', Hlc', Hsub, Hq, Hl, Hp, Hlc.
  repeat split. unfold scheduleLoad. destruct (currentTimeout e1); simpl; by rewrite Ho.
Qed.

Lemma enqueue_armed id (e : Engine T) : quiet e → armed (enqueue id e).
Proof.
  intros Hquiet. unfold enqueue. apply scheduleLoad_quiet.
  set (e0 := set_currentQueue _ e).
  assert (quiet e0) as Hquiet0 by exact Hquiet.
  destruct (truthy id); [|done].
  destruct (report_sameControl markQueued id e0) as (_ & _ & _ & _ & Hc & Ht & _).
  unfold quiet, armed. rewrite Ht, Hc. exact Hquiet0.
Qed.

(** The observer calls made for one update, whatever the observer list. *)
Lemma received_notify id callback (st : ItemState T) callbacks :
  received id callback (map (λ c, mkCall id c st) callbacks) =
    (λ _, st) <$> filter (λ c, c = callback) callbacks.
Proof.
  unfold received. induction callbacks as [|c l IH]; [done|]. cbn [map].
  destruct (decide (c = callback)) as [->|Hne].
  - rewrite (filter_cons_True (λ c, c = callback)) by done.
    rewrite filter_cons_True by done.
    rewrite !fmap_cons. by rewrite IH.
  - rewrite (filter_cons_False (λ c, c = callback)) by done.
    rewrite filter_cons_False; [apply IH|]. simpl. by intros [_ ?].
Qed.





Lemma enqueueAll_returns keys (e : Engine T) :
  (∀ id, id ∈ keys → is_Some (subscriptions e !! id)) →
  foldl (λ o id, andThen o (λ _ e, addToQueue (Some id) e)) (Returned () e) keys =
    Returned () (foldl (λ e id, enqueue id e) e keys).
Proof.
  revert e. induction keys as [|k keys IH]; intros e Hkeys; [done|].
  cbn [foldl andThen]. rewrite addToQueue_registered by (apply Hkeys; by left).
  apply IH. intros id Hin.
  destruct (enqueue_frame k e) as (-> & _). apply Hkeys. by right.
Qed.

Lemma enqueueAll_frame keys (e : Engine T) :
  subscriptions (foldl (λ e id, enqueue id e) e keys) = subscriptions e ∧
  currentQueue (foldl (λ e id, enqueue id e) e keys) = currentQueue e ++ (Some <$> keys) ∧
  currentLoader (foldl (λ e id, enqueue id e) e keys) = currentLoader e ∧
  pending (foldl (λ e id, enqueue id e) e keys) = pending e ∧
  loaderCalls (foldl (λ e id, enqueue id e) e keys) = loaderCalls e ∧
  optionsWithDefaultValues (foldl (λ e id, enqueue id e) e keys) = optionsWithDefaultValues e.
Proof.
  revert e. induction keys as [|k keys IH]; intros e.
  - simpl. by rewrite app_nil_r.
  - cbn [foldl]. destruct (IH (enqueue k e)) as (-> & -> & -> & -> & -> & ->).
    destruct (enqueue_frame k e) as (-> & -> & -> & -> & -> & ->).
    rewrite fmap_cons, <- app_assoc. by repeat split.
Qed.

Lemma enqueueAll_armed keys (e : Engine T) :
  quiet e → keys ≠ [] → armed (foldl (λ e id, enqueue id e) e keys).
Proof.
  revert e. induction keys as [|k keys IH]; intros e Hquiet Hne; [done|].
  cbn [foldl]. destruct keys as [|k' keys'].
  - by apply enqueue_armed.
  - apply IH; [|done]. right. by apply enqueue_armed.
Qed.



(** X1: [refreshAll] over an enumeration of the registry never throws. It
    pushes every registered identifier once, in the order of the
    enumeration, followed by the sentinel when [loadWithoutItems] is set, and
    starts no load itself. With nothing to push it changes nothing; otherwise
    it leaves exactly one timer armed when at most the tracked timer was
    armed before. *)
Theorem refreshAll_enqueues_registry (keys : list string) (e : Engine T) :
  enumerates keys e →
  ∃ e', refreshAll keys e = Returned () e' ∧
    currentQueue e' =
      currentQueue e ++ (Some <$> keys) ++
        (if loadWithoutItems (optionsWithDefaultValues e) then [None] else []) ∧
    subscriptions e' = subscriptions e ∧
    loaderCalls e' = loaderCalls e ∧
    pending e' = pending e ∧
    (keys = [] → loadWithoutItems (optionsWithDefaultValues e) = false → e' = e) ∧
    (quiet e →
     keys ≠ [] ∨ loadWithoutItems (optionsWithDefaultValues e) = true →
     armed e').
Proof.
  intros [Hnodup Hkeys]. unfold refreshAll.
  rewrite enqueueAll_returns by (intros id; apply Hkeys).
  cbn [andThen].
  set (e1 := foldl _ e keys).
  destruct (enqueueAll_frame keys e) as (Hsub & Hq & Hl & Hp & Hlc & Ho).
  fold e1 in Hsub, Hq, Hl, Hp, Hlc, Ho. rewrite Ho.
  destruct (loadWithoutItems (optionsWithDefaultValues e)) eqn:Hlwi.
  - rewrite addToQueue_sentinel. eexists. split; [reflexivity|].
    set (e2 := set_currentQueue _ e1).
    destruct (scheduleLoad_frame e2) as (Hsub' & _ & _ & Hq' & _ & Hp' & Hlc').
    rewrite Hsub', Hq', Hp', Hlc'. subst e2. simpl. rewrite Hq, Hsub, Hp, Hlc.
    rewrite <- app_assoc. repeat split; try done.
    intros Hquiet _. apply scheduleLoad_quiet.
    destruct keys as [|k keys']; [exact Hquiet|].
    right. by apply (enqueueAll_armed (k :: keys') e).
  - eexists. split; [reflexivity|].
    rewrite Hq, app_nil_r. repeat split; try done.
    + intros ->. done.
    + intros Hquiet [Hne|?]; [|done]. by apply enqueueAll_armed.
Qed.


(** The call [refreshAll()] as a step of a run. *)
Lemma isEnumeration_enumerates keys (e : Engine T) :
  isEnumeration keys e = true → enumerates keys e.
Proof.
  unfold isEnumeration. intros Hkeys. apply andb_prop in Hkeys as [Hnodup Hdom].
  apply bool_decide_eq_true in Hnodup. apply bool_decide_eq_true in Hdom.
  split; [done|]. intros id. by rewrite <- elem_of_dom, <- Hdom, elem_of_list_to_set.
Qed.

Lemma refreshAll_enumerated keys (e : Engine T) :
  enumerates keys e →
  refreshAll keys e =
    Returned ()
      (let e1 := foldl (λ e id, enqueue id e) e keys in
       if loadWithoutItems (optionsWithDefaultValues e1)
       then scheduleLoad (set_currentQueue (currentQueue e1 ++ [None]) e1)
       else e1).
Proof.
  intros [_ Hkeys]. unfold refreshAll.
  rewrite enqueueAll_returns by (intros id; apply Hkeys).
  cbn [andThen]. by destruct (loadWithoutItems _).
Qed.

(** A property kept by every enqueue is kept by the call [refreshAll()]. *)
Lemma step_refreshAll_ind (P : Engine T → Prop) keys e :
  (∀ id e, P e → P (enqueue id e)) →
  (∀ e, P e → P (scheduleLoad (set_currentQueue (currentQueue e ++ [None]) e))) →
  P e → P (step getId e (RefreshAll keys)).
Proof.
  intros Henqueue Hsentinel He. cbn [step].
  destruct (isEnumeration keys e) eqn:Hkeys; [|exact He].
  rewrite (refreshAll_enumerated keys e (isEnumeration_enumerates _ _ Hkeys)).
  cbn [engineOf].
  assert (P (foldl (λ e id, enqueue id e) e keys)) as He1.
  { clear Hkeys. revert e He. induction keys as [|k keys IH]; intros e He; [done|].
    cbn [foldl]. by apply IH, Henqueue. }
  cbv zeta. destruct (loadWithoutItems _); [by apply Hsentinel|exact He1].
Qed.

(** ** Identifiers the engine has never heard of *)

Lemma report_unknown id mark id' (e : Engine T) :
  unknown id e → unknown id (report mark id' e).
Proof.
  intros [Hsub Hst]. unfold report.
  destruct (subscriptions e !! id') as [callbacks|] eqn:Hsub'; [|done].
  assert (id' ≠ id) by congruence.
  split; simpl; [done|]. by rewrite lookup_insert_ne.
Qed.

Lemma timerCallback_unknown id (e : Engine T) :
  unknown id e → unknown id (timerCallback e).
Proof.
  intros He. unfold timerCallback.
  set (e1 := reportLoading _ _).
  assert (unknown id e1) as [Hsub Hst].
  { apply reportLoading_ind; [intros; by apply report_unknown|]. apply He. }
  simpl. destruct (currentLoader e1 _); [done|done|].
  set (e2 := reportFailed _ _).
  assert (unknown id e2) as [Hsub2 Hst2]; [|done].
  apply reportFailed_ind; [intros; by apply report_unknown|]. done.
Qed.

Lemma afterAwait_unknown id p (e : Engine T) :
  unknown id e → unknown id (afterAwait getId p e).
Proof.
  intros He. unfold afterAwait.
  destruct p.2 as [result|].
  - set (e1 := reportFinished _ _ _ _).
    assert (unknown id e1) as [??]; [|done].
    apply reportFinished_ind; [intros; by apply report_unknown..|done].
  - set (e1 := reportFailed _ _).
    assert (unknown id e1) as [??]; [|done].
    apply reportFailed_ind; [intros; by apply report_unknown|done].
Qed.

Lemma scheduleLoad_unknown id (e : Engine T) :
  unknown id e → unknown id (scheduleLoad e).
Proof. intros He. unfold scheduleLoad. by destruct (currentTimeout e). Qed.

Lemma enqueue_unknown id id' (e : Engine T) :
  unknown id e → unknown id (enqueue id' e).
Proof.
  intros He. unfold enqueue. apply scheduleLoad_unknown.
  destruct (truthy id'); [apply report_unknown|]; exact He.
Qed.

Lemma step_unknown id op (e : Engine T) :
  touches id op = false → unknown id e → unknown id (step getId e op).
Proof.
  intros Hop He.
  destruct op as [id' cb|id' cb|id'| | | |h|k|keys]; cbn [step]; simpl in Hop; try done.
  - apply bool_decide_eq_false in Hop.
    destruct (subscribe_cases e id' cb)
      as [(callbacks & Hsub' & ->)|[(Hsub' & Hown & ->)|(Hsub' & Hinh & ->)]]; [| |done].
    + destruct He as [Hsub Hst].
      split; simpl; [by rewrite lookup_insert_ne|done].
    + destruct He as [Hsub Hst].
      split; simpl.
      * rewrite lookup_insert_ne by done.
        by destruct (currentTimeout e).
      * destruct (currentTimeout e); simpl; by rewrite lookup_insert_ne.
  - destruct He as [Hsub Hst]. unfold unsubscribe.
    destruct (subscriptions e !! id') as [callbacks|] eqn:Hsub'; [|done].
    assert (id' ≠ id) by congruence. simpl.
    destruct (_ && _); split; simpl;
      rewrite ?lookup_delete_ne, ?lookup_insert_ne by done; done.
  - apply bool_decide_eq_false in Hop. destruct He as [Hsub Hst].
    unfold refresh, addToQueue, reportQueuing. simpl.
    destruct (truthy id'); simpl.
    + destruct (subscriptions e !! id'); simpl.
      * apply scheduleLoad_unknown. split; simpl; [done|by rewrite lookup_insert_ne].
      * split; simpl; [done|by rewrite lookup_insert_ne].
    + by apply scheduleLoad_unknown.
  - unfold timerFires. case_bool_decide; simpl; [|done].
    apply timerCallback_unknown. by destruct He.
  - unfold loadSettles. destruct (pending e !! k); simpl; [|done].
    apply afterAwait_unknown. by destruct He.
  - apply (step_refreshAll_ind (unknown id)); [intros; by apply enqueue_unknown| |done].
    intros e' He'. apply scheduleLoad_unknown. exact He'.
Qed.

Lemma run_unknown id ops (e : Engine T) :
  Forall (λ op, touches id op = false) ops → unknown id e →
  unknown id (run getId ops e).
Proof.
  unfold run. intros Hops. revert e.
  induction Hops as [|op ops Hop Hops IH]; simpl; intros e He; [done|].
  apply IH. by apply step_unknown.
Qed.

Lemma createBatchLoader_unknown id (loader : Loader T) options :
  unknown id (createBatchLoader loader options).
Proof.
  unfold createBatchLoader. simpl.
  by destruct (default _ (p_loadWithoutItems options)).
Qed.

(** C8 (what the code does): [getItem] always returns and leaves the engine
    as it was, but what it returns for an identifier without stored state
    is the default state only if the identifier is no name of
    [Object.prototype]: for ["toString"], ["constructor"] and the like it
    returns the member that [itemStates], a plain object, inherits. An
    identifier that no call has subscribed or refreshed since the engine was
    created has no stored state, whatever else was called, [refreshAll]
    included. Engines in which [__proto__] was refreshed are left out: that
    assignment replaces the prototype of [itemStates]. *)
Theorem getItem_unknown_identifier (loader : Loader T) (options : PartialOptions)
    (ops : list (Op T)) (e : Engine T) (id : string) :
  (∃ item, getItem id e = Returned item e) ∧
  (itemStates e !! id = None →
   itemStates e !! "__proto__" = None →
   getItem id e = Returned (if inherited id then Member id else State NEW_ITEM_STATE) e) ∧
  (Forall (λ op, touches id op = false ∧ touches "__proto__" op = false) ops →
   let e' := run getId ops (createBatchLoader loader options) in
   itemStates e' !! id = None ∧
   getItem id e' = Returned (if inherited id then Member id else State NEW_ITEM_STATE) e') ∧
  (inherited "toString" = true ∧
   getItem "toString" (createBatchLoader loader options) =
     Returned (Member "toString") (createBatchLoader loader options)).
Proof.
  assert (∀ e' : Engine T, itemStates e' !! id = None →
            getItem id e' =
              Returned (if inherited id then Member id else State NEW_ITEM_STATE) e')
    as Hnone.
  { intros e' Hst. unfold getItem, readProperty. rewrite Hst. by destruct (inherited id). }
  split; [by eexists|]. split; [intros Hst _; by apply Hnone|]. split.
  - intros Hops e'.
    assert (Forall (λ op : Op T, touches id op = false) ops) as Hops'.
    { eapply Forall_impl; [exact Hops|]. by intros op [? _]. }
    destruct (run_unknown id ops _ Hops' (createBatchLoader_unknown id loader options))
      as [_ Hst].
    split; [exact Hst|]. by apply Hnone.
  - split; [done|].
    destruct (createBatchLoader_unknown "toString" loader options) as [_ Hst].
    unfold getItem, readProperty. by rewrite Hst.
Qed.

(** ** [setLoader] and [setDebounce] *)





Lemma timerFires_armed (e : Engine T) h :
  h ∈ (timers e).*1 →
  ∃ e', timerFires h e = Some e' ∧
    loaderCalls e' = loaderCalls e ++ [filterDefined (currentQueue e)] ∧
    pending e' =
      pending e ++
        match currentLoader e (filterDefined (currentQueue e)) with
        | Resolves items => [(currentQueue e, Some items)]
        | Rejects => [(currentQueue e, None)]
        | Throws => []
        end ∧
    currentQueue e' = [] ∧
    currentLoader e' = currentLoader e ∧
    subscriptions e' = subscriptions e ∧
    timers e' = filter (λ t, t.1 ≠ h) (timers e) ∧
    optionsWithDefaultValues e' = optionsWithDefaultValues e.
Proof.
  intros Hh. unfold timerFires. rewrite bool_decide_eq_true_2 by done.
  eexists. split; [reflexivity|]. unfold timerCallback. simpl.
  set (e0 := set_currentQueue [] _).
  destruct (reportLoading_sameControl (currentQueue e) e0)
    as (Ho & Hl & Hq & Hsub & _ & Ht & _ & Hp & Hlc).
  simpl in Ho, Hl, Hq, Hsub, Ht, Hp, Hlc. rewrite Hl, Hlc.
  set (e1 := set_loaderCalls _ _).
  destruct (reportFailed_sameControl (currentQueue e) e1)
    as (Ho1 & Hl1 & Hq1 & Hsub1 & _ & Ht1 & _ & Hp1 & Hlc1).
  destruct (currentLoader e (filterDefined (currentQueue e))); simpl;
    rewrite ?Ho1, ?Hl1, ?Hq1, ?Hsub1, ?Ht1, ?Hp1, ?Hlc1; simpl;
    rewrite ?Ho, ?Hl, ?Hq, ?Hsub, ?Ht, ?Hp, ?Hlc, ?app_nil_r; by repeat split.
Qed.


Lemma scheduleLoad_options (e : Engine T) :
  optionsWithDefaultValues (scheduleLoad e) = optionsWithDefaultValues e.
Proof. unfold scheduleLoad. by destruct (currentTimeout e). Qed.

Lemma step_options (e : Engine T) op :
  optionsWithDefaultValues (step getId e op) =
    match op with
    | SetDebounce d =>
        mkOptions d (loadWithoutItems (optionsWithDefaultValues e))
          (keepCache (optionsWithDefaultValues e))
    | _ => optionsWithDefaultValues e
    end.
Proof.
  destruct op as [id cb|id cb|id| | | |h|k|keys]; try done; cbn [step].
  - destruct (subscribe_cases e id cb)
      as [(callbacks & Hsub & ->)|[(Hsub & Hown & ->)|(Hsub & Hinh & ->)]]; [done| |done].
    cbn [engineOf optionsWithDefaultValues set_subscriptions].
    by rewrite scheduleLoad_options.
  - unfold unsubscribe. destruct (subscriptions e !! id); [|done].
    simpl. by destruct (_ && _).
  - destruct (truthy id) eqn:Hid.
    + destruct (subscriptions e !! id) as [callbacks|] eqn:Hsub.
      * rewrite (refresh_registered _ _ _ Hid Hsub). cbn [engineOf].
        rewrite scheduleLoad_options.
        by destruct (report_sameControl markQueued id
                       (set_currentQueue (currentQueue e ++ [Some id]) e)) as [-> _].
      * by rewrite (refresh_unregistered _ _ Hid Hsub).
    + unfold refresh, addToQueue. rewrite reportQueuing_falsy by done.
      cbn [andThen engineOf]. by rewrite scheduleLoad_options.
  - destruct (decide (h ∈ (timers e).*1)) as [Hh|Hh].
    + destruct (timerFires_armed e h Hh) as (e' & -> & Hrest). simpl.
      by destruct Hrest as (_ & _ & _ & _ & _ & _ & ->).
    + unfold timerFires. by rewrite bool_decide_eq_false_2.
  - unfold loadSettles. destruct (pending e !! k) as [[ids result]|]; [|done].
    simpl. unfold afterAwait. simpl. destruct result as [items|].
    + apply (reportFinished_sameControl ids items
               (set_pending (delete k (pending e)) e)).
    + apply (reportFailed_sameControl ids (set_pending (delete k (pending e)) e)).
  - apply (step_refreshAll_ind
             (λ e', optionsWithDefaultValues e' = optionsWithDefaultValues e)); [| |done].
    + intros id e' <-. by destruct (enqueue_frame id e') as (_ & _ & _ & _ & _ & ->).
    + intros e' <-. by rewrite scheduleLoad_options.
Qed.

(** X4: no call, [refreshAll] included, and no event changes [keepCache] or
    [loadWithoutItems]; the debounce in force after a run is the one of its
    last [setDebounce].
    [setDebounce] leaves the armed timers and their delays alone, and the
    next timer armed carries the new delay. *)
Theorem options_over_a_run (ops : list (Op T)) (e : Engine T) (d : Z) :
  keepCache (optionsWithDefaultValues (run getId ops e)) =
    keepCache (optionsWithDefaultValues e) ∧
  loadWithoutItems (optionsWithDefaultValues (run getId ops e)) =
    loadWithoutItems (optionsWithDefaultValues e) ∧
  debounce (optionsWithDefaultValues (run getId ops e)) =
    lastDebounce ops (debounce (optionsWithDefaultValues e)) ∧
  timers (engineOf (setDebounce d e)) = timers e ∧
  last (timers (scheduleLoad (engineOf (setDebounce d e)))) = Some (nextTimer e, d).
Proof.
  repeat apply conj.
  - revert e. induction ops as [|op ops IH]; intros e; [done|].
    rewrite run_cons, IH, step_options. by destruct op.
  - revert e. induction ops as [|op ops IH]; intros e; [done|].
    rewrite run_cons, IH, step_options. by destruct op.
  - revert e. induction ops as [|op ops IH]; intros e; [done|].
    rewrite run_cons, IH, step_options. unfold lastDebounce. simpl. by destruct op.
  - done.
  - unfold scheduleLoad. simpl. destruct (currentTimeout e); simpl; by rewrite last_snoc.
Qed.

(** ** [isDefined] and the identifiers handed to the loader *)

(** X5: the list handed to the loader is the queue without its sentinels and
    nothing else: the empty string stays, the order and the repetitions are
    kept, and a queue of identifiers is handed over as it is. *)
Theorem filterDefined_drops_sentinels_only (q : Queue) (ids : list string) (id : string) :
  Some <$> filterDefined q = filter (λ x, isDefined x = true) q ∧
  filterDefined (Some <$> ids) = ids ∧
  length (filter (λ x, x = id) (filterDefined q)) = occurrences id q ∧
  (id ∈ filterDefined q ↔ Some id ∈ q).
Proof.
  unfold occurrences, Queue in *.
  split; [|split; [|split]].
  - induction q as [|[s|] q IH]; [done|..].
    + change (filterDefined (Some s :: q)) with (s :: filterDefined q).
      rewrite fmap_cons, filter_cons_True by done. by rewrite IH.
    + change (filterDefined (None :: q)) with (filterDefined q).
      rewrite filter_cons_False by (simpl; congruence). exact IH.
  - induction ids as [|s ids IH]; [done|].
    rewrite fmap_cons.
    change (filterDefined (Some s :: (Some <$> ids)))
      with (s :: filterDefined (Some <$> ids)).
    by rewrite IH.
  - induction q as [|[s|] q IH]; [done|..].
    + change (filterDefined (Some s :: q)) with (s :: filterDefined q).
      destruct (decide (s = id)) as [->|Hne].
      * rewrite !filter_cons_True by done. cbn [length]. by rewrite IH.
      * rewrite !filter_cons_False by congruence. exact IH.
    + change (filterDefined (None :: q)) with (filterDefined q).
      rewrite filter_cons_False by done. exact IH.
  - induction q as [|[s|] q IH].
    + by rewrite !elem_of_nil.
    + change (filterDefined (Some s :: q)) with (s :: filterDefined q).
      rewrite !elem_of_cons, IH. split; intros [?|?]; auto; left; congruence.
    + change (filterDefined (None :: q)) with (filterDefined q).
      rewrite elem_of_cons, IH. split; [auto|]. by intros [?|?].
Qed.

(** ** The engine as created *)

(** X6: a new engine has no registry entry, no stored state and has called
    nobody. Without [loadWithoutItems] its queue is empty and no timer is
    armed, so that the environment alone never makes it load; with
    [loadWithoutItems] the sentinel is queued behind one timer with the
    configured delay, and when that timer fires the loader is called once,
    with no identifier, and no observer is called. *)
Theorem createBatchLoader_initial (loader : Loader T) (options : PartialOptions)
    (events : list (Op T)) :
  let e := createBatchLoader loader options in
  subscriptions e = ∅ ∧ itemStates e = ∅ ∧ calls e = [] ∧
  loaderCalls e = [] ∧ pending e = [] ∧
  optionsWithDefaultValues e = withDefaultValues options ∧
  if loadWithoutItems (withDefaultValues options)
  then currentQueue e = [None] ∧
       timers e = [(1, debounce (withDefaultValues options))] ∧
       currentTimeout e = Some 1 ∧
       ∃ e', timerFires 1 e = Some e' ∧
             loaderCalls e' = [[]] ∧ calls e' = [] ∧ itemStates e' = ∅ ∧
             currentQueue e' = [] ∧ timers e' = []
  else currentQueue e = [] ∧ timers e = [] ∧
       (Forall (λ op, isEvent op = true) events → run getId events e = e).
Proof.
  unfold createBatchLoader. cbn [optionsWithDefaultValues].
  destruct (loadWithoutItems (withDefaultValues options)) eqn:Hlwi.
  - simpl. repeat split.
    unfold timerFires. simpl.
    eexists. split; [reflexivity|].
    unfold timerCallback. simpl. destruct (loader []); by repeat split.
  - simpl. repeat split. intros Hevents. by apply events_idle.
Qed.

(** ** The disposer *)

Lemma unsubscribe_registered (e : Engine T) id callback callbacks :
  subscriptions e !! id = Some callbacks →
  unsubscribe id callback e =
    Returned ()
      (if bool_decide (length (filter (λ c, c ≠ callback) callbacks) = 0)
          && negb (keepCache (optionsWithDefaultValues e))
       then set_itemStates (delete id (itemStates e))
              (set_subscriptions (delete id (subscriptions e)) e)
       else set_subscriptions
              (<[id := filter (λ c, c ≠ callback) callbacks]> (subscriptions e)) e).
Proof.
  intros Hsub. unfold unsubscribe. rewrite Hsub. simpl.
  destruct (_ && _); [|done].
  by rewrite delete_insert_eq.
Qed.

(** X7: the disposer returns exactly when [id] has a registry entry. It then
    removes every registration of [callback] for [id], however often it was
    subscribed, keeps the other observers of [id] in their order, and leaves
    the entries and states of the other identifiers, the queue, the timers
    and the awaited loads as they are; it calls nobody. The state of [id]
    itself goes only when the entry goes. *)
Theorem unsubscribe_removes_callback (e : Engine T) (id : string)
    (callback : ItemCallback) :
  match subscriptions e !! id with
  | None => unsubscribe id callback e = Threw e
  | Some callbacks =>
      ∃ e', unsubscribe id callback e = Returned () e' ∧
        ¬ listening id callback e' ∧
        (subscriptions e' !! id = Some (filter (λ c, c ≠ callback) callbacks) ∧
         itemStates e' !! id = itemStates e !! id ∨
         filter (λ c, c ≠ callback) callbacks = [] ∧
         keepCache (optionsWithDefaultValues e) = false ∧
         subscriptions e' !! id = None ∧ itemStates e' !! id = None) ∧
        (∀ id', id' ≠ id →
           subscriptions e' !! id' = subscriptions e !! id' ∧
           itemStates e' !! id' = itemStates e !! id') ∧
        currentQueue e' = currentQueue e ∧ timers e' = timers e ∧
        currentTimeout e' = currentTimeout e ∧ pending e' = pending e ∧
        calls e' = calls e
  end.
Proof.
  destruct (subscriptions e !! id) as [callbacks|] eqn:Hsub.
  - rewrite (unsubscribe_registered _ _ _ _ Hsub). eexists. split; [reflexivity|].
    set (remaining := filter (λ c, c ≠ callback) callbacks).
    assert (callback ∉ remaining) as Hgone.
    { intros Hin. by apply list_elem_of_filter in Hin as [? _]. }
    destruct (bool_decide (length remaining = 0)) eqn:Hlen;
      [destruct (keepCache (optionsWithDefaultValues e)) eqn:Hkeep|];
      unfold listening; simpl.
    + repeat split; try done.
      * intros (cbs & Hcbs & Hin). rewrite lookup_insert_eq in Hcbs. congruence.
      * left. by rewrite lookup_insert_eq.
      * by rewrite lookup_insert_ne.
    + apply bool_decide_eq_true in Hlen. apply nil_length_inv in Hlen.
      repeat split; try done.
      * intros (cbs & Hcbs & Hin). by rewrite lookup_delete_eq in Hcbs.
      * right. by rewrite !lookup_delete_eq.
      * by rewrite lookup_delete_ne.
      * by rewrite lookup_delete_ne.
    + repeat split; try done.
      * intros (cbs & Hcbs & Hin). rewrite lookup_insert_eq in Hcbs. congruence.
      * left. by rewrite lookup_insert_eq.
      * by rewrite lookup_insert_ne.
  - unfold unsubscribe. by rewrite Hsub.
Qed.

(** X8: subscribing and disposing at once, for an identifier the engine did
    not know and that is no name of [Object.prototype], without [keepCache],
    gives back the registry and the stored states as they were and calls
    nobody; but the identifier stays in the queue behind an armed timer, so
    the loader will still be asked for it. *)
Theorem subscribe_unsubscribe_round_trip (e : Engine T) (id : string)
    (callback : ItemCallback) :
  unknown id e →
  inherited id = false →
  keepCache (optionsWithDefaultValues e) = false →
  ∃ e1 e2,
    subscribe id callback e = Returned () e1 ∧
    unsubscribe id callback e1 = Returned () e2 ∧
    subscriptions e2 = subscriptions e ∧
    itemStates e2 = itemStates e ∧
    calls e2 = calls e ∧
    currentQueue e2 = currentQueue e ++ [Some id] ∧
    currentTimeout e2 = Some (nextTimer e) ∧
    nextTimer e ∈ (timers e2).*1.
Proof.
  intros [Hsub Hst] Hown Hkeep.
  rewrite (subscribe_new _ _ _ Hsub Hown). eexists. eexists. split; [reflexivity|].
  rewrite (unsubscribe_registered _ _ _ [callback]);
    [|cbn [subscriptions set_subscriptions]; by rewrite lookup_insert_eq].
  rewrite filter_cons_False by (simpl; tauto). rewrite filter_nil.
  cbn [length optionsWithDefaultValues set_subscriptions].
  rewrite scheduleLoad_options.
  cbn [optionsWithDefaultValues set_currentQueue set_itemStates]. rewrite Hkeep.
  rewrite bool_decide_eq_true_2 by done. cbn [andb negb].
  split; [reflexivity|].
  set (e0 := set_currentQueue _ _).
  destruct (scheduleLoad_frame e0) as (_ & Hst0 & Hcalls0 & Hq0 & _).
  destruct (scheduleLoad_armed e0) as (Ht0 & Harmed0).
  cbn [subscriptions itemStates calls currentQueue currentTimeout timers
       set_itemStates set_subscriptions].
  rewrite Hst0, Hcalls0, Hq0, Ht0. subst e0.
  cbn [itemStates calls currentQueue nextTimer set_currentQueue set_itemStates].
  rewrite !delete_insert_eq, !delete_id by done. by repeat split.
Qed.

(** ** Observers that have left *)

Lemma filter_eq_notin (callback : ItemCallback) callbacks :
  callback ∉ callbacks → filter (λ c, c = callback) callbacks = [].
Proof.
  induction callbacks as [|c l IH]; [done|]. intros Hnin.
  apply not_elem_of_cons in Hnin as [Hne Hnin].
  rewrite filter_cons_False by congruence. by apply IH.
Qed.

Lemma deaf_ext id callback r (e e' : Engine T) :
  subscriptions e' = subscriptions e → calls e' = calls e →
  deaf id callback r e → deaf id callback r e'.
Proof. unfold deaf, listening. by intros -> ->. Qed.

Lemma report_deaf id callback r mark id' (e : Engine T) :
  deaf id callback r e → deaf id callback r (report mark id' e).
Proof.
  intros [Hdeaf Hr]. split.
  - unfold listening. by rewrite report_subscriptions.
  - rewrite report_calls, received_app, Hr.
    destruct (subscriptions e !! id') as [callbacks|] eqn:Hsub; [|by rewrite app_nil_r].
    destruct (decide (id' = id)) as [->|Hne].
    + rewrite received_notify, filter_eq_notin; [by rewrite app_nil_r|].
      intros Hin. apply Hdeaf. by exists callbacks.
    + by rewrite received_notify_ne, app_nil_r.
Qed.

Lemma scheduleLoad_deaf id callback r (e : Engine T) :
  deaf id callback r e → deaf id callback r (scheduleLoad e).
Proof.
  destruct (scheduleLoad_frame e) as (Hsub & _ & Hcalls & _). by apply deaf_ext.
Qed.

Lemma timerCallback_deaf id callback r (e : Engine T) :
  deaf id callback r e → deaf id callback r (timerCallback e).
Proof.
  intros He. unfold timerCallback.
  set (e1 := reportLoading _ _).
  assert (deaf id callback r e1) as He1.
  { apply reportLoading_ind; [intros; by apply report_deaf|]. exact He. }
  set (e2 := set_loaderCalls _ e1).
  assert (deaf id callback r e2) as He2 by exact He1.
  destruct (currentLoader e2 _); [exact He2..|].
  apply (deaf_ext _ _ _ (reportFailed (currentQueue e) e2)); [done..|].
  apply reportFailed_ind; [intros; by apply report_deaf|exact He2].
Qed.

Lemma afterAwait_deaf id callback r p (e : Engine T) :
  deaf id callback r e → deaf id callback r (afterAwait getId p e).
Proof.
  intros He. unfold afterAwait. destruct p.2 as [result|].
  - apply (deaf_ext _ _ _ (reportFinished getId p.1 result e)); [done..|].
    apply reportFinished_ind; [intros; by apply report_deaf..|exact He].
  - apply (deaf_ext _ _ _ (reportFailed p.1 e)); [done..|].
    apply reportFailed_ind; [intros; by apply report_deaf|exact He].
Qed.

Lemma step_deaf id callback r op (e : Engine T) :
  resubscribes id callback op = false →
  deaf id callback r e → deaf id callback r (step getId e op).
Proof.
  intros Hop He.
  destruct op as [id' cb'|id' cb'|id'| | | |h|k|keys]; simpl in Hop; cbn [step].
  - apply bool_decide_eq_false in Hop.
    destruct (subscribe_cases e id' cb')
      as [(callbacks & Hsub & ->)|[(Hsub & Hown & ->)|(Hsub & Hinh & ->)]];
      [| |exact He]; destruct He as [Hdeaf Hr].
    + split; [|done].
      intros (cbs & Hcbs & Hin). simpl in Hcbs.
      destruct (decide (id' = id)) as [->|Hne].
      * rewrite lookup_insert_eq in Hcbs. injection Hcbs as <-.
        apply elem_of_app in Hin as [Hin|Hin].
        -- apply Hdeaf. by exists callbacks.
        -- apply list_elem_of_singleton in Hin. by apply Hop.
      * rewrite lookup_insert_ne in Hcbs by done. apply Hdeaf. by exists cbs.
    + cbn [engineOf].
      set (e0 := set_currentQueue _ _).
      destruct (scheduleLoad_frame e0) as (Hsub0 & _ & Hcalls0 & _).
      split; [|cbn [calls set_subscriptions]; by rewrite Hcalls0].
      intros (cbs & Hcbs & Hin). cbn [subscriptions set_subscriptions] in Hcbs.
      destruct (decide (id' = id)) as [->|Hne].
      * rewrite lookup_insert_eq in Hcbs. injection Hcbs as <-.
        apply list_elem_of_singleton in Hin. by apply Hop.
      * rewrite lookup_insert_ne in Hcbs by done. apply Hdeaf. by exists cbs.
  - destruct He as [Hdeaf Hr].
    destruct (subscriptions e !! id') as [callbacks|] eqn:Hsub.
    + rewrite (unsubscribe_registered _ _ _ _ Hsub). cbn [engineOf].
      destruct (_ && _); (split; [|done]); intros (cbs & Hcbs & Hin); simpl in Hcbs.
      * destruct (decide (id' = id)) as [->|Hne].
        -- by rewrite lookup_delete_eq in Hcbs.
        -- rewrite lookup_delete_ne in Hcbs by done. apply Hdeaf. by exists cbs.
      * destruct (decide (id' = id)) as [->|Hne].
        -- rewrite lookup_insert_eq in Hcbs. injection Hcbs as <-.
           apply list_elem_of_filter in Hin as [_ Hin]. apply Hdeaf. by exists callbacks.
        -- rewrite lookup_insert_ne in Hcbs by done. apply Hdeaf. by exists cbs.
    + unfold unsubscribe. by rewrite Hsub.
  - destruct (truthy id') eqn:Hid.
    + destruct (subscriptions e !! id') as [callbacks|] eqn:Hsub.
      * rewrite (refresh_registered _ _ _ Hid Hsub). cbn [engineOf].
        apply scheduleLoad_deaf, report_deaf. exact He.
      * rewrite (refresh_unregistered _ _ Hid Hsub). exact He.
    + unfold refresh, addToQueue. rewrite reportQueuing_falsy by done.
      cbn [andThen engineOf]. apply scheduleLoad_deaf. exact He.
  - exact He.
  - exact He.
  - exact He.
  - unfold timerFires. case_bool_decide; [|exact He].
    cbn [default]. apply timerCallback_deaf. exact He.
  - unfold loadSettles. destruct (pending e !! k); [|exact He].
    cbn [default]. apply afterAwait_deaf. exact He.
  - apply (step_refreshAll_ind (deaf id callback r)); [| |exact He].
    + intros id' e' He'. unfold enqueue. apply scheduleLoad_deaf.
      destruct (truthy id'); [apply report_deaf|]; exact He'.
    + intros e' He'. apply scheduleLoad_deaf. exact He'.
Qed.

(** X9: an observer that is not registered for [id] is never called for
    [id], whatever is called ([refreshAll] included) and whatever happens,
    until it subscribes to [id] again. In particular
    once its disposer has returned, loads that were already queued or
    awaited no longer reach it. *)
Theorem unsubscribed_observer_is_never_called (e : Engine T) (id : string)
    (callback : ItemCallback) (ops : list (Op T)) :
  ¬ listening id callback e →
  Forall (λ op, resubscribes id callback op = false) ops →
  received id callback (calls (run getId ops e)) = received id callback (calls e) ∧
  ¬ listening id callback (run getId ops e).
Proof.
  intros Hdeaf Hops.
  assert (deaf id callback (received id callback (calls e)) (run getId ops e)) as [??];
    [|done].
  assert (deaf id callback (received id callback (calls e)) e) as He by done.
  clear Hdeaf. generalize dependent (received id callback (calls e)).
  intros r. revert e.
  induction Hops as [|op ops Hop _ IH]; intros e He; [done|].
  rewrite run_cons. apply IH. by apply step_deaf.
Qed.

(** ** What reachable engines look like *)

Lemma complete_marks (st : ItemState T) :
  complete st →
  complete (markQueued st) ∧ complete (markLoading st) ∧ complete (markFailed st) ∧
  ∀ item, complete (markSucceeded item st).
Proof. unfold complete. intros (? & ? & ? & ?). by repeat split. Qed.

Lemma sound_ext (e e' : Engine T) :
  subscriptions e' = subscriptions e → itemStates e' = itemStates e →
  calls e' = calls e → sound e → sound e'.
Proof. unfold sound. by intros -> -> ->. Qed.

Lemma report_sound mark id (e : Engine T) :
  (∀ st, complete st → complete (mark st)) → truthy id = true →
  sound e → sound (report mark id e).
Proof.
  intros Hmark Hid [Hreg Htold].
  destruct (subscriptions e !! id) as [callbacks|] eqn:Hsub;
    [|by rewrite report_unregistered].
  destruct (Hreg _ _ Hsub) as (st & Hst & Hcomplete).
  split.
  - intros id' callbacks'. rewrite report_subscriptions. intros Hsub'.
    destruct (decide (id = id')) as [<-|Hne].
    + rewrite (report_lookup _ _ _ _ Hsub), Hst. eauto.
    + rewrite report_lookup_ne by done. by eapply Hreg.
  - rewrite report_calls, Hsub, Hst. apply Forall_app. split; [done|].
    apply Forall_forall. intros c Hc.
    apply list_elem_of_In, in_map_iff in Hc as (callback & <- & _).
    simpl. auto.
Qed.

Lemma timerCallback_sound (e : Engine T) : sound e → sound (timerCallback e).
Proof.
  intros He. unfold timerCallback.
  set (e1 := reportLoading _ _).
  assert (sound e1) as He1.
  { apply reportLoading_ind; [|exact He].
    intros id e' _ Hid. apply report_sound; [|done]. intros st. apply complete_marks. }
  set (e2 := set_loaderCalls _ e1).
  assert (sound e2) as He2 by exact He1.
  destruct (currentLoader e2 _); [exact He2..|].
  apply (sound_ext (reportFailed (currentQueue e) e2)); [done..|].
  apply reportFailed_ind; [|exact He2].
  intros id e' _ Hid. apply report_sound; [|done]. intros st. apply complete_marks.
Qed.

Lemma afterAwait_sound p (e : Engine T) : sound e → sound (afterAwait getId p e).
Proof.
  intros He. unfold afterAwait. destruct p.2 as [result|].
  - apply (sound_ext (reportFinished getId p.1 result e)); [done..|].
    apply reportFinished_ind; [| |exact He].
    + intros id item e' _ Hid _. apply report_sound; [|done].
      intros st Hst. by apply complete_marks.
    + intros id e' _ Hid _. apply report_sound; [|done]. intros st. apply complete_marks.
  - apply (sound_ext (reportFailed p.1 e)); [done..|].
    apply reportFailed_ind; [|exact He].
    intros id e' _ Hid. apply report_sound; [|done]. intros st. apply complete_marks.
Qed.

Lemma scheduleLoad_sound (e : Engine T) : sound e → sound (scheduleLoad e).
Proof.
  destruct (scheduleLoad_frame e) as (Hsub & Hst & Hcalls & _). by apply sound_ext.
Qed.

Lemma NEW_ITEM_STATE_complete : complete (@NEW_ITEM_STATE T).
Proof. by repeat split. Qed.

Lemma step_sound op (e : Engine T) : sound e → sound (step getId e op).
Proof.
  intros He. destruct op as [id cb|id cb|id| | | |h|k|keys]; cbn [step]; try exact He.
  - destruct (subscribe_cases e id cb)
      as [(callbacks & Hsub & ->)|[(Hsub & Hown & ->)|(Hsub & Hinh & ->)]];
      [| |exact He]; destruct He as [Hreg Htold].
    + split; [|done].
      intros id' cbs. simpl. destruct (decide (id = id')) as [<-|Hne].
      * intros _. by eapply Hreg.
      * rewrite lookup_insert_ne by done. apply Hreg.
    + cbn [engineOf].
      set (e0 := set_currentQueue _ _).
      destruct (scheduleLoad_frame e0) as (_ & Hst0 & Hcalls0 & _).
      split; cbn [subscriptions itemStates calls set_subscriptions];
        rewrite ?Hst0, ?Hcalls0; [|done].
      intros id' cbs. subst e0. simpl. destruct (decide (id = id')) as [<-|Hne].
      * intros _. rewrite lookup_insert_eq. eexists. split; [done|].
        apply NEW_ITEM_STATE_complete.
      * rewrite !lookup_insert_ne by done. apply Hreg.
  - destruct He as [Hreg Htold].
    destruct (subscriptions e !! id) as [callbacks|] eqn:Hsub.
    + rewrite (unsubscribe_registered _ _ _ _ Hsub). cbn [engineOf].
      destruct (_ && _); (split; [|done]); intros id' cbs; simpl.
      * destruct (decide (id = id')) as [<-|Hne]; [by rewrite lookup_delete_eq|].
        rewrite !lookup_delete_ne by done. apply Hreg.
      * destruct (decide (id = id')) as [<-|Hne].
        -- intros _. by eapply Hreg.
        -- rewrite lookup_insert_ne by done. apply Hreg.
    + unfold unsubscribe. by rewrite Hsub.
  - destruct (truthy id) eqn:Hid.
    + destruct (subscriptions e !! id) as [callbacks|] eqn:Hsub.
      * rewrite (refresh_registered _ _ _ Hid Hsub). cbn [engineOf].
        apply scheduleLoad_sound, report_sound; [|done..].
        intros st. apply complete_marks.
      * rewrite (refresh_unregistered _ _ Hid Hsub). cbn [engineOf].
        destruct He as [Hreg Htold]. split; [|done].
        intros id' cbs. simpl. intros Hsub'.
        assert (id ≠ id') by congruence.
        rewrite lookup_insert_ne by done. by eapply Hreg.
    + unfold refresh, addToQueue. rewrite reportQueuing_falsy by done.
      cbn [andThen engineOf]. by apply scheduleLoad_sound.
  - unfold timerFires. case_bool_decide; [|exact He].
    cbn [default]. apply timerCallback_sound. exact He.
  - unfold loadSettles. destruct (pending e !! k); [|exact He].
    cbn [default]. apply afterAwait_sound. exact He.
  - apply (step_refreshAll_ind sound); [| |exact He].
    + intros id e' He'. unfold enqueue. apply scheduleLoad_sound.
      destruct (truthy id) eqn:Hid; [|exact He'].
      apply report_sound; [|done|exact He']. intros st. apply complete_marks.
    + intros e' He'. apply scheduleLoad_sound. exact He'.
Qed.

Lemma createBatchLoader_sound (loader : Loader T) options :
  sound (createBatchLoader loader options).
Proof.
  unfold createBatchLoader. cbn [optionsWithDefaultValues].
  destruct (loadWithoutItems _); (split; [|by apply Forall_nil]);
    intros id cbs; simpl; by rewrite lookup_empty.
Qed.

Lemma run_sound ops (e : Engine T) : sound e → sound (run getId ops e).
Proof.
  revert e. induction ops as [|op ops IH]; intros e He; [done|].
  rewrite run_cons. by apply IH, step_sound.
Qed.

(** X10: in every engine reached from a new one, by any calls ([refreshAll]
    included) and events, a registered identifier has a stored state with
    all four fields, which is what [getItem] returns for it, and every state
    an observer was ever called with has all four fields. The partial state
    written by a [refresh] that throws is never that of a registered
    identifier. *)
Theorem observers_see_complete_states (loader : Loader T) (options : PartialOptions)
    (ops : list (Op T)) (id : string) (callbacks : list ItemCallback) :
  let e := run getId ops (createBatchLoader loader options) in
  (subscriptions e !! id = Some callbacks →
   ∃ st, getItem id e = Returned (State st) e ∧ itemStates e !! id = Some st ∧
         complete st) ∧
  Forall (λ c, complete (call_state c)) (calls e).
Proof.
  intros e.
  destruct (run_sound ops _ (createBatchLoader_sound loader options)) as [Hreg Htold].
  fold e in Hreg, Htold. split.
  - intros Hsub. destruct (Hreg _ _ Hsub) as (st & Hst & Hcomplete).
    exists st. unfold getItem, readProperty. by rewrite Hst.
  - eapply Forall_impl; [exact Htold|]. by intros c [? _].
Qed.

(** X11: in every engine reached from a new one, by any calls ([refreshAll]
    included) and events, no observer was ever called for the empty string:
    whoever subscribes to it is never told anything. *)
Theorem empty_identifier_is_never_notified (loader : Loader T) (options : PartialOptions)
    (ops : list (Op T)) (callback : ItemCallback) :
  received EmptyString callback (calls (run getId ops (createBatchLoader loader options)))
    = [].
Proof.
  destruct (run_sound ops _ (createBatchLoader_sound loader options)) as [_ Htold].
  unfold received.
  induction Htold as [|c l [_ Hc] _ IH]; [done|].
  rewrite filter_cons_False; [exact IH|].
  intros [Hid _]. by rewrite Hid in Hc.
Qed.

Lemma step_subscriptions op (e : Engine T) :
  match op with
  | Subscribe _ _ | Unsubscribe _ _ => True
  | _ => subscriptions (step getId e op) = subscriptions e
  end.
Proof.
  destruct op as [id cb|id cb|id| | | |h|k|keys]; try done; cbn [step].
  - destruct (truthy id) eqn:Hid.
    + destruct (subscriptions e !! id) as [callbacks|] eqn:Hsub.
      * rewrite (refresh_registered _ _ _ Hid Hsub). cbn [engineOf].
        destruct (scheduleLoad_frame
                    (report markQueued id
                       (set_currentQueue (currentQueue e ++ [Some id]) e))) as [-> _].
        by rewrite report_subscriptions.
      * by rewrite (refresh_unregistered _ _ Hid Hsub).
    + unfold refresh, addToQueue. rewrite reportQueuing_falsy by done.
      cbn [andThen engineOf].
      by destruct (scheduleLoad_frame
                     (set_currentQueue (currentQueue e ++ [Some id]) e)) as [-> _].
  - destruct (decide (h ∈ (timers e).*1)) as [Hh|Hh].
    + destruct (timerFires_armed e h Hh) as (e' & -> & Hrest). simpl.
      by destruct Hrest as (_ & _ & _ & _ & -> & _).
    + unfold timerFires. by rewrite bool_decide_eq_false_2.
  - unfold loadSettles. destruct (pending e !! k) as [[ids result]|]; [|done].
    simpl. unfold afterAwait. simpl. destruct result as [items|].
    + apply (reportFinished_sameControl ids items
               (set_pending (delete k (pending e)) e)).
    + apply (reportFailed_sameControl ids (set_pending (delete k (pending e)) e)).
  - apply (step_refreshAll_ind (λ e', subscriptions e' = subscriptions e)); [| |done].
    + intros id e' <-. by destruct (enqueue_frame id e') as (-> & _).
    + intros e' <-.
      by destruct (scheduleLoad_frame (set_currentQueue (currentQueue e' ++ [None]) e'))
        as (-> & _).
Qed.

Lemma step_noEmptyEntry op (e : Engine T) :
  keepCache (optionsWithDefaultValues e) = false →
  noEmptyEntry e → noEmptyEntry (step getId e op).
Proof.
  intros Hkeep He.
  pose proof (step_subscriptions op e) as Hsame.
  destruct op as [id cb|id cb|id| | | |h|k|keys];
    try (unfold noEmptyEntry; by rewrite Hsame).
  - cbn [step].
    destruct (subscribe_cases e id cb)
      as [(callbacks & Hsub & ->)|[(Hsub & Hown & ->)|(Hsub & Hinh & ->)]]; [| |exact He].
    + intros id' cbs. simpl.
      destruct (decide (id = id')) as [<-|Hne].
      * rewrite lookup_insert_eq. intros [= <-]. by destruct callbacks.
      * rewrite lookup_insert_ne by done. apply He.
    + intros id' cbs.
      cbn [engineOf subscriptions set_subscriptions].
      destruct (decide (id = id')) as [<-|Hne].
      * rewrite lookup_insert_eq. by intros [= <-].
      * rewrite lookup_insert_ne by done. apply He.
  - cbn [step]. destruct (subscriptions e !! id) as [callbacks|] eqn:Hsub.
    + rewrite (unsubscribe_registered _ _ _ _ Hsub). rewrite Hkeep.
      cbn [negb engineOf]. rewrite andb_true_r.
      case_bool_decide as Hlen; intros id' cbs; simpl.
      * destruct (decide (id = id')) as [<-|Hne]; [by rewrite lookup_delete_eq|].
        rewrite lookup_delete_ne by done. apply He.
      * destruct (decide (id = id')) as [<-|Hne].
        -- rewrite lookup_insert_eq. intros [= <-] Hnil. by rewrite Hnil in Hlen.
        -- rewrite lookup_insert_ne by done. apply He.
    + unfold unsubscribe. by rewrite Hsub.
Qed.

(** X12: without [keepCache], in every engine reached from a new one, by
    any calls ([refreshAll] included) and events, a registry entry has at
    least one observer: an identifier is registered exactly as long as
    somebody observes it. *)
Theorem registry_entries_have_observers (loader : Loader T) (options : PartialOptions)
    (ops : list (Op T)) :
  keepCache (withDefaultValues options) = false →
  noEmptyEntry (run getId ops (createBatchLoader loader options)).
Proof.
  intros Hkeep.
  assert (keepCache (optionsWithDefaultValues (createBatchLoader loader options)) = false)
    as Hkeep0.
  { unfold createBatchLoader. cbn [optionsWithDefaultValues].
    destruct (loadWithoutItems _); [|done].
    rewrite addToQueue_sentinel. cbn [engineOf]. by rewrite scheduleLoad_options. }
  assert (noEmptyEntry (createBatchLoader loader options)) as He0.
  { intros id cbs. unfold createBatchLoader. cbn [optionsWithDefaultValues].
    destruct (loadWithoutItems _); simpl; by rewrite lookup_empty. }
  revert Hkeep0 He0. generalize (createBatchLoader loader options) as e.
  induction ops as [|op ops IH]; intros e Hkeep0 He; [done|].
  rewrite run_cons. apply IH.
  - rewrite step_options. by destruct op.
  - by apply step_noEmptyEntry.
Qed.

(** ** Identifiers queued more than once *)








(** ** What one observer is told, event by event *)







(** ** The tracked timer *)

(** X14: when an awaited load settles, the engine forgets the timer it
    tracks but does not disarm it. A [refresh] of a registered identifier
    that follows arms a new timer and clears none: every timer that was
    armed stays armed beside the new one. *)
Theorem settle_forgets_tracked_timer (e : Engine T) (k : nat) (p : Pending T)
    (id : string) :
  pending e !! k = Some p →
  is_Some (subscriptions e !! id) →
  ∃ e1 e2,
    loadSettles getId k e = Some e1 ∧
    currentTimeout e1 = None ∧
    timers e1 = timers e ∧
    refresh id e1 = Returned () e2 ∧
    timers e2 = timers e ++ [(nextTimer e, debounce (optionsWithDefaultValues e))] ∧
    currentTimeout e2 = Some (nextTimer e).
Proof.
  intros Hp Hsub. rewrite (loadSettles_pending _ _ _ Hp).
  set (e0 := set_pending _ e).
  assert (∃ e', afterAwait getId p e0 = set_currentTimeout None e' ∧ sameControl e0 e')
    as (e' & Heq & Ho & _ & Hq & Hsub' & _ & Ht & Hn & _).
  { unfold afterAwait. destruct p.2 as [result|]; eexists; (split; [reflexivity|]).
    - apply reportFinished_sameControl.
    - apply reportFailed_sameControl. }
  exists (afterAwait getId p e0), (enqueue id (afterAwait getId p e0)).
  rewrite Heq. split; [done|]. split; [done|]. split; [exact Ht|].
  unfold refresh. rewrite addToQueue_registered
    by (cbn [subscriptions set_currentTimeout]; by rewrite Hsub').
  split; [reflexivity|].
  unfold enqueue.
  set (e1 := set_currentQueue _ _).
  set (e2 := if truthy id then report markQueued id e1 else e1).
  assert (sameControl e1 e2) as (Ho2 & _ & _ & _ & Hc2 & Ht2 & Hn2 & _).
  { subst e2. destruct (truthy id); [apply report_sameControl|apply sameControl_refl]. }
  unfold scheduleLoad. rewrite Hc2. subst e1. simpl. rewrite Ht2, Hn2, Ho2. simpl.
  by rewrite Ht, Hn, Ho.
Qed.

(** ** [refresh] of a registered identifier *)


(** ** The engine of a context without loader *)



(** ** Names inherited from [Object.prototype] *)

Lemma step_registry_own op (e : Engine T) :
  (∀ id, inherited id = true → subscriptions e !! id = None) →
  ∀ id, inherited id = true → subscriptions (step getId e op) !! id = None.
Proof.
  intros He id Hinh.
  pose proof (step_subscriptions op e) as Hsame.
  destruct op as [id' cb|id' cb|id'| | | |h|k|keys]; try (rewrite Hsame; by apply He).
  - cbn [step].
    destruct (subscribe_cases e id' cb)
      as [(callbacks & Hsub & ->)|[(Hsub & Hown & ->)|(Hsub & Hinh' & ->)]];
      [| |by apply He].
    + cbn [engineOf subscriptions set_subscriptions].
      rewrite lookup_insert_ne; [by apply He|]. intros ->. rewrite He in Hsub; done.
    + cbn [engineOf subscriptions set_subscriptions].
      rewrite lookup_insert_ne by congruence. by apply He.
  - cbn [step]. destruct (subscriptions e !! id') as [callbacks|] eqn:Hsub.
    + assert (id' ≠ id) as Hne by (intros ->; rewrite He in Hsub; done).
      rewrite (unsubscribe_registered _ _ _ _ Hsub). cbn [engineOf].
      destruct (_ && _); simpl.
      * rewrite lookup_delete_ne by done. by apply He.
      * rewrite lookup_insert_ne by done. by apply He.
    + unfold unsubscribe. rewrite Hsub. by apply He.
Qed.

(** X18: on a name that plain objects inherit from [Object.prototype] and
    that has no registry entry, [subscribe] and the disposer throw and leave
    the engine as it was: nothing is stored, queued or armed and nobody is
    called. So no such name is ever registered in an engine reached from a
    new one. *)
Theorem inherited_names_are_never_registered (loader : Loader T)
    (options : PartialOptions) (ops : list (Op T)) (e : Engine T) (id : string)
    (callback : ItemCallback) :
  inherited id = true →
  (subscriptions e !! id = None →
   subscribe id callback e = Threw e ∧ unsubscribe id callback e = Threw e) ∧
  subscriptions (run getId ops (createBatchLoader loader options)) !! id = None.
Proof.
  intros Hinh. split.
  - intros Hsub. split; [by apply subscribe_inherited|].
    unfold unsubscribe. by rewrite Hsub.
  - assert (∀ id, inherited id = true →
              subscriptions (createBatchLoader loader options) !! id = None) as He0.
    { intros id' _. apply createBatchLoader_unknown. }
    revert He0 id Hinh. generalize (createBatchLoader loader options) as e0.
    induction ops as [|op ops IH]; intros e0 He0 id Hinh; [by apply He0|].
    rewrite run_cons. apply IH; [|done]. by apply step_registry_own.
Qed.

End Properties.

(** ** The engine of the test-suite: instances and counterexamples *)

(** C1 at a concrete input: a fresh engine, [refresh("1")] with no
    subscription. *)
Lemma refresh_unregistered_throws_fresh :
  truthy "1" = true ∧
  subscriptions (createBatchLoader loadItems noOptions) !! "1" = None ∧
  ∃ e', refresh "1" (createBatchLoader loadItems noOptions) = Threw e' ∧
        itemStates e' !! "1" =
          Some (markQueued
                  (spread (itemStates (createBatchLoader loadItems noOptions) !! "1"))) ∧
        getItem "1" e' =
          Returned
            (State (markQueued
                      (spread (itemStates (createBatchLoader loadItems noOptions) !! "1"))))
            e' ∧
        currentQueue e' = currentQueue (createBatchLoader loadItems noOptions) ++ [Some "1"] ∧
        timers e' = timers (createBatchLoader loadItems noOptions) ∧
        currentTimeout e' = currentTimeout (createBatchLoader loadItems noOptions) ∧
        calls e' = calls (createBatchLoader loadItems noOptions).
Proof.
  split; [evaluate|]. split; [evaluate|].
  apply (refresh_unregistered_throws (createBatchLoader loadItems noOptions) "1");
    evaluate.
Defined.



(** C3 at a concrete input: the burst is the single call [refresh("1")] on a
    fresh engine; the timer handles 1 and 2 then "fire" and a load "settles"
    to no effect. *)
Lemma lone_refresh_never_loads_fresh :
  loadWithoutItems (withDefaultValues noOptions) = false ∧
  truthy "1" = true ∧
  let e := run item_id [Refresh "1"; TimerFires 1; TimerFires 2; LoadSettles 0]
             (createBatchLoader loadItems noOptions) in
  currentQueue e = [Some "1"] ∧ loaderCalls e = [] ∧ timers e = [] ∧ pending e = [].
Proof.
  split; [evaluate|]. split; [evaluate|].
  apply (lone_refresh_never_loads item_id loadItems noOptions "1"
           [TimerFires 1; TimerFires 2; LoadSettles 0]); [evaluate..|].
  repeat constructor.
Defined.

(** C4, counterexample: ["1"] is subscribed and unsubscribed before the timer
    fires. The loader is called with ["1"] and returns the matching item, but
    nothing is stored for ["1"] and nobody is told. *)
Lemma stale_identifier_not_marked :
  let e := run item_id [Subscribe "1" 0; Unsubscribe "1" 0; TimerFires 1]
             (createBatchLoader loadItems noOptions) in
  pending e = [([Some "1"], Some [MOCKED_ITEM; MOCKED_ITEM2])] ∧
  loaderCalls e = [["1"]] ∧
  findItem item_id [MOCKED_ITEM; MOCKED_ITEM2] "1" = Some MOCKED_ITEM ∧
  ∃ e', loadSettles item_id 0 e = Some e' ∧
        itemStates e' !! "1" = None ∧
        calls e' = [].
Proof.
  cbv zeta. repeat split; try evaluate.
  eexists. split; [evaluate|]. split; evaluate.
Qed.

(** C4, instances of the amended statement: the batch of the tests
    resolves; and a batch of numbers resolves, in which the item found for
    ["0"] is falsy. *)
Lemma resolved_load_reconciles_batch :
  (pending (awaitingBatch loadItems) !! 0 =
     Some ([Some "1"; Some "2"], Some [MOCKED_ITEM; MOCKED_ITEM2]) ∧
   ∃ e', loadSettles item_id 0 (awaitingBatch loadItems) = Some e' ∧
         (∃ st, itemStates e' !! "2" = Some st ∧ data st = Some (Some MOCKED_ITEM2) ∧
                hasErrors st = Some false ∧ isLoading st = Some false)) ∧
  (let e := run numberId [Subscribe "0" 0; Subscribe "1" 1; TimerFires 2]
              (createBatchLoader loadNumbers noOptions) in
   pending e !! 0 = Some ([Some "0"; Some "1"], Some [0; 1]) ∧
   ∃ e', loadSettles numberId 0 e = Some e' ∧
         (∃ st, itemStates e' !! "0" = Some st ∧ failedState st) ∧
         (∃ st, itemStates e' !! "1" = Some st ∧ data st = Some (Some 1))).
Proof.
  split.
  - assert (pending (awaitingBatch loadItems) !! 0 =
              Some ([Some "1"; Some "2"], Some [MOCKED_ITEM; MOCKED_ITEM2])) as Hpending
      by evaluate.
    split; [exact Hpending|].
    destruct (resolved_load_reconciles item_id (awaitingBatch loadItems) 0
                [Some "1"; Some "2"] [MOCKED_ITEM; MOCKED_ITEM2] Hpending)
      as (e' & Hsettles & Hmarked & _).
    exists e'. split; [exact Hsettles|].
    apply (Hmarked "2"); [|evaluate|exists [1]; evaluate].
    apply elem_of_cons. right. apply elem_of_cons. by left.
  - cbv zeta.
    set (e := run numberId [Subscribe "0" 0; Subscribe "1" 1; TimerFires 2]
                (createBatchLoader loadNumbers noOptions)).
    assert (pending e !! 0 = Some ([Some "0"; Some "1"], Some [0; 1])) as Hpending
      by evaluate.
    split; [exact Hpending|].
    destruct (resolved_load_reconciles numberId e 0 [Some "0"; Some "1"] [0; 1] Hpending)
      as (e' & Hsettles & Hmarked & _).
    exists e'. split; [exact Hsettles|]. split.
    + apply (Hmarked "0"); [|evaluate|exists [0]; evaluate].
      apply elem_of_cons. by left.
    + destruct (Hmarked "1") as (st & Hst & Hdata & _); [|evaluate|exists [1]; evaluate|].
      * apply elem_of_cons. right. apply elem_of_cons. by left.
      * by exists st.
Defined.

(** C4, the falsy item: with numbers as items, ["0"] and ["1"] are
    subscribed and the loader returns [0] and [1]. The item found for ["0"]
    is falsy and ["0"] is marked failed; ["1"] is marked succeeded. *)
Lemma falsy_item_marked_failed :
  let e := run numberId [Subscribe "0" 0; Subscribe "1" 1; TimerFires 2; LoadSettles 0]
             (createBatchLoader loadNumbers noOptions) in
  findItem numberId [0; 1] "0" = Some 0 ∧
  matchingItem numberId [0; 1] "0" = None ∧
  itemStates e !! "0" = Some (markFailed (markLoading NEW_ITEM_STATE)) ∧
  itemStates e !! "1" = Some (markSucceeded 1 (markLoading NEW_ITEM_STATE)) ∧
  loaderCalls e = [["0"; "1"]].
Proof. cbv zeta. repeat split; evaluate. Qed.

(** C5, counterexample: the empty string is subscribed, the timer fires and
    the load rejects. The empty string is in the snapshot and registered, yet
    its stored state is still the default one, without errors. *)
Lemma empty_identifier_not_marked_failed :
  let e := run item_id [Subscribe EmptyString 0; TimerFires 1]
             (createBatchLoader rejectingLoader noOptions) in
  pending e = [([Some EmptyString], None)] ∧
  loaderCalls e = [[EmptyString]] ∧
  subscriptions e !! EmptyString = Some [0] ∧
  ∃ e', loadSettles item_id 0 e = Some e' ∧
        itemStates e' !! EmptyString = Some NEW_ITEM_STATE ∧
        hasErrors (@NEW_ITEM_STATE MockedItem) = Some false ∧
        calls e' = [].
Proof.
  cbv zeta. repeat split; try evaluate.
  eexists. split; [evaluate|]. repeat split; evaluate.
Qed.

(** C5, instances of the amended statement: the batch of the tests with a
    loader that rejects, and with a loader that throws. *)
Lemma failed_load_marks_batch_tests :
  (pending (awaitingBatch rejectingLoader) !! 0 = Some ([Some "1"; Some "2"], None) ∧
   ∃ e', loadSettles item_id 0 (awaitingBatch rejectingLoader) = Some e' ∧
         (∃ st, itemStates e' !! "1" = Some st ∧ failedState st) ∧
         loaderCalls e' = [["1"; "2"]] ∧ timers e' = []) ∧
  (let e := run item_id [Subscribe "1" 0; Subscribe "2" 1]
              (createBatchLoader throwingLoader noOptions) in
   2 ∈ (timers e).*1 ∧
   currentLoader e (filterDefined (currentQueue e)) = Throws ∧
   ∃ e', timerFires 2 e = Some e' ∧
         (∃ st, itemStates e' !! "2" = Some st ∧ failedState st) ∧
         loaderCalls e' = [["1"; "2"]] ∧ pending e' = []).
Proof.
  split.
  - assert (pending (awaitingBatch rejectingLoader) !! 0 =
              Some ([Some "1"; Some "2"], None)) as Hpending by evaluate.
    split; [exact Hpending|].
    destruct (proj1 (failed_load_marks_batch item_id (awaitingBatch rejectingLoader)
                       [Some "1"; Some "2"] 0 0) Hpending)
      as (e' & Hsettles & Hmarked & _ & Hl & Ht & _).
    exists e'. split; [exact Hsettles|]. split; [|split].
    + apply (Hmarked "1"); [|evaluate|exists [0]; evaluate].
      apply elem_of_cons. by left.
    + rewrite Hl. evaluate.
    + rewrite Ht. evaluate.
  - cbv zeta.
    set (e := run item_id [Subscribe "1" 0; Subscribe "2" 1]
                (createBatchLoader throwingLoader noOptions)).
    assert (timers e = [(2, 0%Z)]) as Htimers by evaluate.
    assert (currentQueue e = [Some "1"; Some "2"]) as Hqueue by evaluate.
    assert (2 ∈ (timers e).*1) as Harmed.
    { rewrite Htimers. apply elem_of_cons. by left. }
    assert (currentLoader e (filterDefined (currentQueue e)) = Throws) as Hthrows
      by evaluate.
    split; [exact Harmed|]. split; [exact Hthrows|].
    destruct (proj2 (failed_load_marks_batch item_id e [] 0 2) Harmed Hthrows)
      as (e' & Hfires & Hmarked & Hl & _ & _ & Hp).
    exists e'. split; [exact Hfires|]. split; [|split].
    + apply (Hmarked "2"); [|evaluate|exists [1]; evaluate].
      rewrite Hqueue. apply elem_of_cons. right. apply elem_of_cons. by left.
    + rewrite Hl. evaluate.
    + rewrite Hp. evaluate.
Defined.


(** C7, counterexample: with [keepCache] the entry of ["1"] outlives its
    last observer. A new [subscribe] then finds no observer, yet it neither
    resets the stored state nor enqueues ["1"] nor arms a timer. *)
Lemma resubscribe_with_keepCache_does_not_enqueue :
  let e := engineOf (unsubscribe "1" 0 (loadedEngine withKeepCache)) in
  subscriptions e !! "1" = Some [] ∧
  currentQueue e = [] ∧
  ∃ e', subscribe "1" 1 e = Returned () e' ∧
        currentQueue e' = [] ∧
        timers e' = [] ∧
        itemStates e' !! "1" = Some (markSucceeded MOCKED_ITEM (markLoading NEW_ITEM_STATE)) ∧
        itemStates e' !! "1" ≠ Some NEW_ITEM_STATE ∧
        subscriptions e' !! "1" = Some [1].
Proof.
  cbv zeta. repeat split; try evaluate.
  eexists. split; [evaluate|]. repeat split; try evaluate.
  intros Heq. vm_compute in Heq. discriminate.
Qed.

(** C7, instance of the amended statement: the first [subscribe] of the
    tests. *)
Lemma subscribe_enqueues_iff_unregistered_tests :
  inherited "1" = false ∧
  subscriptions (createBatchLoader loadItems noOptions) !! "1" = None ∧
  ∃ e', subscribe "1" 0 (createBatchLoader loadItems noOptions) = Returned () e' ∧
        itemStates e' !! "1" = Some NEW_ITEM_STATE ∧
        currentQueue e' = [Some "1"] ∧
        subscriptions e' !! "1" = Some [0] ∧
        currentTimeout e' = Some 1.
Proof.
  assert (inherited "1" = false) as Hown by evaluate.
  assert (subscriptions (createBatchLoader loadItems noOptions) !! "1" = None) as Hsub
    by evaluate.
  split; [exact Hown|]. split; [exact Hsub|].
  pose proof (subscribe_enqueues_iff_unregistered
                (createBatchLoader loadItems noOptions) "1" 0 Hown) as Hsubscribe.
  rewrite Hsub in Hsubscribe.
  destruct Hsubscribe as (e' & Hs & Hst & _ & Hq & Hcbs & Ht & _).
  exists e'. split; [exact Hs|]. split; [exact Hst|]. split; [|split].
  - rewrite Hq. evaluate.
  - exact Hcbs.
  - rewrite Ht. evaluate.
Defined.

(** On a name inherited from [Object.prototype], [subscribe] throws on a
    fresh engine and leaves it as it was: nothing is queued, no timer is
    armed. *)
Lemma subscribe_constructor_throws :
  subscribe "constructor" 0 (createBatchLoader loadItems noOptions) =
    Threw (createBatchLoader loadItems noOptions) ∧
  currentQueue (createBatchLoader loadItems noOptions) = [] ∧
  timers (createBatchLoader loadItems noOptions) = [].
Proof. repeat split; evaluate. Qed.

(** C8 at concrete inputs: ["2"] is subscribed and loaded and everything is
    refreshed; ["1"], never seen, has the default state, and ["toString"],
    never seen either, has not. *)
Lemma getItem_unknown_identifier_tests :
  let ops : list (Op MockedItem) :=
    [Subscribe "2" 0; TimerFires 1; LoadSettles 0; Unsubscribe "1" 0; RefreshAll ["2"]] in
  let e := run item_id ops (createBatchLoader loadItems noOptions) in
  Forall (λ op, touches "1" op = false ∧ touches "__proto__" op = false) ops ∧
  Forall (λ op, touches "toString" op = false ∧ touches "__proto__" op = false) ops ∧
  getItem "1" e = Returned (State NEW_ITEM_STATE) e ∧
  getItem "toString" e = Returned (Member "toString") e ∧
  currentQueue e = [Some "2"].
Proof.
  cbv zeta.
  set (ops := [Subscribe "2" 0; TimerFires 1; LoadSettles 0; Unsubscribe "1" 0;
               RefreshAll ["2"]] : list (Op MockedItem)).
  assert (Forall (λ op, touches "1" op = false ∧ touches "__proto__" op = false) ops)
    as Hops1 by (repeat constructor).
  assert (Forall (λ op, touches "toString" op = false ∧ touches "__proto__" op = false) ops)
    as Hops2 by (repeat constructor).
  split; [exact Hops1|]. split; [exact Hops2|]. split; [|split].
  - destruct (getItem_unknown_identifier item_id loadItems noOptions ops
                (createBatchLoader loadItems noOptions) "1") as (_ & _ & Hrun & _).
    destruct (Hrun Hops1) as [_ Hget].
    assert (inherited "1" = false) as Hown by evaluate.
    rewrite Hown in Hget. exact Hget.
  - destruct (getItem_unknown_identifier item_id loadItems noOptions ops
                (createBatchLoader loadItems noOptions) "toString") as (_ & _ & Hrun & _).
    destruct (Hrun Hops2) as [_ Hget].
    assert (inherited "toString" = true) as Hinh by evaluate.
    rewrite Hinh in Hget. exact Hget.
  - evaluate.
Defined.

(** C9 at a concrete input: a guarded update of the loaded ["1"]. *)
Lemma reporting_preserves_data_tests :
  subscriptions (loadedEngine noOptions) !! "1" = Some [0] ∧
  itemStates (report markFailed "1" (loadedEngine noOptions)) !! "1" =
    Some (markFailed (spread (itemStates (loadedEngine noOptions) !! "1"))) ∧
  storedData (reportFailed [Some "1"] (loadedEngine noOptions)) "1" =
    Some (Some MOCKED_ITEM).
Proof.
  assert (subscriptions (loadedEngine noOptions) !! "1" = Some [0]) as Hsub by evaluate.
  split; [exact Hsub|].
  pose proof (reporting_preserves_data item_id (loadedEngine noOptions) "1")
    as (_ & _ & _ & Hfailed & _ & Hreport).
  split.
  - exact (proj1 (Hreport markFailed "1" [0] Hsub)).
  - rewrite Hfailed. evaluate.
Defined.

(** C10 at a concrete input: the disposer of the first test, called twice. *)
Lemma unsubscribe_twice_throws_tests :
  keepCache (optionsWithDefaultValues (loadedEngine noOptions)) = false ∧
  subscriptions (loadedEngine noOptions) !! "1" = Some [0] ∧
  ∃ e', unsubscribe "1" 0 (loadedEngine noOptions) = Returned () e' ∧
        unsubscribe "1" 0 e' = Threw e'.
Proof.
  split; [evaluate|]. split; [evaluate|].
  apply (unsubscribe_twice_throws (loadedEngine noOptions) "1" 0 [0]); evaluate.
Defined.

(** A second way for a burst to end in two loads. A load is in flight when
    ["2"] is subscribed (timer 2); the load settles, which forgets the
    tracked handle although timer 2 is still armed; ["2"] is refreshed, which
    arms timer 3 without clearing timer 2. No timer fires between the two
    enqueues, yet both timers fire afterwards: the loader is called with the
    whole burst and then with an empty list. *)
Lemma stale_handle_splits_burst :
  let e := run item_id
             [Subscribe "1" 0; TimerFires 1; Subscribe "2" 1; LoadSettles 0; Refresh "2"]
             (createBatchLoader loadItems noOptions) in
  timers e = [(2, 0%Z); (3, 0%Z)] ∧
  currentQueue e = [Some "2"; Some "2"] ∧
  loaderCalls e = [["1"]] ∧
  loaderCalls (run item_id [TimerFires 2; TimerFires 3] e) = [["1"]; ["2"; "2"]; []].
Proof. cbv zeta. repeat split; evaluate. Qed.

(** ** Instances of the further properties *)

Lemma loadedBatch_enumerated : enumerates ["1"; "2"] loadedBatch.
Proof.
  assert (subscriptions loadedBatch = <["1" := [0]]> (<["2" := [1]]> ∅)) as Hsubs
    by evaluate.
  split.
  - apply NoDup_cons. split; [|apply NoDup_singleton].
    intros Hin. apply list_elem_of_singleton in Hin. discriminate.
  - intros id. rewrite Hsubs.
    destruct (decide (id = "1")) as [->|Hne1].
    + rewrite lookup_insert_eq. split; [by eexists|]. intros _. apply elem_of_cons. by left.
    + rewrite lookup_insert_ne by done.
      destruct (decide (id = "2")) as [->|Hne2].
      * rewrite lookup_insert_eq. split; [by eexists|]. intros _.
        apply elem_of_cons. right. apply elem_of_cons. by left.
      * rewrite lookup_insert_ne, lookup_empty by done. split.
        -- intros Hin. apply elem_of_cons in Hin as [?|Hin]; [done|].
           apply list_elem_of_singleton in Hin. done.
        -- by intros [? ?].
Qed.

(** X1 at a concrete input: [refreshAll] once both items are loaded. *)
Lemma refreshAll_enqueues_registry_tests :
  enumerates ["1"; "2"] loadedBatch ∧
  ∃ e', refreshAll ["1"; "2"] loadedBatch = Returned () e' ∧
        currentQueue e' = [Some "1"; Some "2"] ∧
        loaderCalls e' = [["1"; "2"]].
Proof.
  split; [exact loadedBatch_enumerated|].
  destruct (refreshAll_enqueues_registry ["1"; "2"] loadedBatch loadedBatch_enumerated)
    as (e' & Hreturned & Hq & _ & Hlc & _).
  exists e'. split; [exact Hreturned|]. split.
  - rewrite Hq. evaluate.
  - rewrite Hlc. evaluate.
Defined.



(** X6 at concrete inputs: the engines of the first and of the last test. *)
Lemma createBatchLoader_initial_tests :
  (Forall (λ op : Op MockedItem, isEvent op = true) [TimerFires 1; LoadSettles 0] ∧
   run item_id [TimerFires 1; LoadSettles 0] (createBatchLoader loadItems noOptions) =
     createBatchLoader loadItems noOptions) ∧
  (∃ e', timerFires 1 (createBatchLoader loadItems withLoadWithoutItems) = Some e' ∧
         loaderCalls e' = [[]] ∧ calls e' = []).
Proof.
  split.
  - assert (Forall (λ op : Op MockedItem, isEvent op = true)
              [TimerFires 1; LoadSettles 0]) as Hevents by repeat constructor.
    split; [exact Hevents|].
    pose proof (createBatchLoader_initial item_id loadItems noOptions
                  [TimerFires 1; LoadSettles 0]) as Hinit.
    cbv zeta in Hinit.
    assert (loadWithoutItems (withDefaultValues noOptions) = false) as Hlwi by evaluate.
    rewrite Hlwi in Hinit.
    destruct Hinit as (_ & _ & _ & _ & _ & _ & _ & _ & Hidle).
    exact (Hidle Hevents).
  - pose proof (createBatchLoader_initial item_id loadItems withLoadWithoutItems [])
      as Hinit.
    cbv zeta in Hinit.
    assert (loadWithoutItems (withDefaultValues withLoadWithoutItems) = true) as Hlwi
      by evaluate.
    rewrite Hlwi in Hinit.
    destruct Hinit as (_ & _ & _ & _ & _ & _ & _ & _ & _ & e' & Hfires & Hlc & Hcalls & _).
    exists e'. by repeat split.
Defined.

(** X7 at a concrete input: the disposer of the first test. *)
Lemma unsubscribe_removes_callback_tests :
  subscriptions (loadedEngine noOptions) !! "1" = Some [0] ∧
  ∃ e', unsubscribe "1" 0 (loadedEngine noOptions) = Returned () e' ∧
        ¬ listening "1" 0 e' ∧
        (∀ id', id' ≠ "1" →
           subscriptions e' !! id' = subscriptions (loadedEngine noOptions) !! id' ∧
           itemStates e' !! id' = itemStates (loadedEngine noOptions) !! id').
Proof.
  assert (subscriptions (loadedEngine noOptions) !! "1" = Some ([0] : list ItemCallback))
    as Hsub by evaluate.
  split; [exact Hsub|].
  pose proof (unsubscribe_removes_callback (loadedEngine noOptions) "1" 0) as Hdispose.
  rewrite Hsub in Hdispose.
  destruct Hdispose as (e' & Hreturned & Hdeaf & _ & Hothers & _).
  exists e'. split; [exact Hreturned|]. split; [exact Hdeaf|exact Hothers].
Defined.

(** X8 at a concrete input: the last test, on a fresh engine. *)
Lemma subscribe_unsubscribe_round_trip_tests :
  unknown "1" (createBatchLoader loadItems noOptions) ∧
  inherited "1" = false ∧
  keepCache (optionsWithDefaultValues (createBatchLoader loadItems noOptions)) = false ∧
  ∃ e1 e2,
    subscribe "1" 0 (createBatchLoader loadItems noOptions) = Returned () e1 ∧
    unsubscribe "1" 0 e1 = Returned () e2 ∧
    itemStates e2 = ∅ ∧ currentQueue e2 = [Some "1"].
Proof.
  assert (unknown "1" (createBatchLoader loadItems noOptions)) as Hunknown.
  { split; evaluate. }
  assert (keepCache (optionsWithDefaultValues (createBatchLoader loadItems noOptions))
          = false) as Hkeep by evaluate.
  assert (inherited "1" = false) as Hown by evaluate.
  split; [exact Hunknown|]. split; [exact Hown|]. split; [exact Hkeep|].
  destruct (subscribe_unsubscribe_round_trip
              (createBatchLoader loadItems noOptions) "1" 0 Hunknown Hown Hkeep)
    as (e1 & e2 & Hs & Hu & _ & Hst & _ & Hq & _).
  exists e1, e2. split; [exact Hs|]. split; [exact Hu|]. split.
  - rewrite Hst. evaluate.
  - rewrite Hq. evaluate.
Defined.

(** X9 at a concrete input: two observers of ["1"], the first leaves before
    the timer fires; ["1"] is loaded, refreshed, and refreshed again by
    [refreshAll]. *)
Lemma unsubscribed_observer_is_never_called_tests :
  let e := run item_id [Subscribe "1" 0; Subscribe "1" 1; Unsubscribe "1" 0]
             (createBatchLoader loadItems noOptions) in
  let ops : list (Op MockedItem) :=
    [TimerFires 1; LoadSettles 0; Refresh "1"; RefreshAll ["1"]] in
  ¬ listening "1" 0 e ∧
  Forall (λ op, resubscribes "1" 0 op = false) ops ∧
  received "1" 0 (calls (run item_id ops e)) = [] ∧
  length (received "1" 1 (calls (run item_id ops e))) = 4.
Proof.
  cbv zeta.
  set (ops := [TimerFires 1; LoadSettles 0; Refresh "1"; RefreshAll ["1"]]
              : list (Op MockedItem)).
  set (e := run item_id [Subscribe "1" 0; Subscribe "1" 1; Unsubscribe "1" 0]
              (createBatchLoader loadItems noOptions)).
  assert (¬ listening "1" 0 e) as Hdeaf.
  { intros (cbs & Hcbs & Hin).
    assert (subscriptions e !! "1" = Some [1]) as Hsub by evaluate.
    pose proof (eq_trans (eq_sym Hcbs) Hsub) as Heq. injection Heq as ->.
    apply list_elem_of_singleton in Hin. discriminate. }
  assert (Forall (λ op, resubscribes "1" 0 op = false) ops) as Hops
    by repeat constructor.
  split; [exact Hdeaf|]. split; [exact Hops|]. split.
  - destruct (unsubscribed_observer_is_never_called item_id e "1" 0 ops Hdeaf Hops)
      as [Hrec _].
    rewrite Hrec. evaluate.
  - evaluate.
Defined.

(** X10 at a concrete input: the engine of the first test. *)
Lemma observers_see_complete_states_tests :
  subscriptions (loadedEngine noOptions) !! "1" = Some [0] ∧
  ∃ st, getItem "1" (loadedEngine noOptions) =
          Returned (State st) (loadedEngine noOptions) ∧
        complete st.
Proof.
  assert (subscriptions (loadedEngine noOptions) !! "1" = Some [0]) as Hsub by evaluate.
  split; [exact Hsub|].
  destruct (proj1 (observers_see_complete_states item_id loadItems noOptions
                     [Subscribe "1" 0; TimerFires 1; LoadSettles 0] "1" [0]) Hsub)
    as (st & Hget & _ & Hcomplete).
  exists st. split; [exact Hget|exact Hcomplete].
Defined.

(** X12 at concrete inputs: the engine of the first test, and an engine
    with [loadWithoutItems] in which everything is refreshed before the
    timer fires. *)
Lemma registry_entries_have_observers_tests :
  keepCache (withDefaultValues noOptions) = false ∧
  noEmptyEntry (loadedEngine noOptions) ∧
  keepCache (withDefaultValues withLoadWithoutItems) = false ∧
  let e := run item_id [Subscribe "1" 0; RefreshAll ["1"]; TimerFires 4; LoadSettles 0]
             (createBatchLoader loadItems withLoadWithoutItems) in
  noEmptyEntry e ∧ loaderCalls e = [["1"; "1"]].
Proof.
  assert (keepCache (withDefaultValues noOptions) = false) as Hkeep by evaluate.
  assert (keepCache (withDefaultValues withLoadWithoutItems) = false) as Hkeep' by evaluate.
  split; [exact Hkeep|]. split; [|split; [exact Hkeep'|]].
  - exact (registry_entries_have_observers item_id loadItems noOptions
             [Subscribe "1" 0; TimerFires 1; LoadSettles 0] Hkeep).
  - cbv zeta. split; [|evaluate].
    exact (registry_entries_have_observers item_id loadItems withLoadWithoutItems
             [Subscribe "1" 0; RefreshAll ["1"]; TimerFires 4; LoadSettles 0] Hkeep').
Defined.


(** X14 at a concrete input: the load in flight settles, then ["1"] is
    refreshed: timer 3 stays armed beside timer 4. *)
Lemma settle_forgets_tracked_timer_tests :
  pending busyEngine !! 0 = Some ([Some "1"], None) ∧
  is_Some (subscriptions busyEngine !! "1") ∧
  ∃ e1 e2,
    loadSettles item_id 0 busyEngine = Some e1 ∧
    refresh "1" e1 = Returned () e2 ∧
    timers e2 = [(3, 0%Z); (4, 0%Z)].
Proof.
  assert (pending busyEngine !! 0 = Some ([Some "1"], None)) as Hpending by evaluate.
  assert (is_Some (subscriptions busyEngine !! "1")) as Hsub.
  { exists [0]. evaluate. }
  split; [exact Hpending|]. split; [exact Hsub|].
  destruct (settle_forgets_tracked_timer item_id busyEngine 0 _ "1" Hpending Hsub)
    as (e1 & e2 & Hs & _ & _ & Hr & Ht & _).
  exists e1, e2. split; [exact Hs|]. split; [exact Hr|].
  rewrite Ht. evaluate.
Defined.




(** X18 at a concrete input: ["constructor"] on the engine of the first
    test. *)
Lemma inherited_names_are_never_registered_tests :
  inherited "constructor" = true ∧
  subscriptions (loadedEngine noOptions) !! "constructor" = None ∧
  subscribe "constructor" 0 (loadedEngine noOptions) = Threw (loadedEngine noOptions) ∧
  unsubscribe "constructor" 0 (loadedEngine noOptions) = Threw (loadedEngine noOptions).
Proof.
  assert (inherited "constructor" = true) as Hinh by evaluate.
  assert (subscriptions (loadedEngine noOptions) !! "constructor" = None) as Hsub
    by evaluate.
  split; [exact Hinh|]. split; [exact Hsub|].
  exact (proj1 (inherited_names_are_never_registered item_id loadItems noOptions []
                  (loadedEngine noOptions) "constructor" 0 Hinh) Hsub).
Defined.
